(** * Multi-Source RAG Engine

    A shallow embedding of the Streamlit application ([app.py]) and of its
    helper modules ([src/video_processor.py], [src/data_loader.py],
    [src/vector_store.py], [src/rag_pipeline.py]).

    The Python code is imperative: it mutates [st.session_state], the
    Streamlit caches and the file system, and it calls third-party
    collaborators (transcript API, downloader, speech-to-text model, document
    loaders, text splitter, embedding model, vector database, language
    model).  The embedding threads an explicit [World] through a small
    state-and-exception monad, and takes the collaborators as a record of
    oracles ([Services]).  Logging calls are not modelled. *)

From Stdlib Require Import ZArith Lia String Ascii List.
From stdpp Require Import base option gmap strings list.
Import ListNotations.

#[local] Open Scope string_scope.

(** ** Python built-ins used by the application *)

Module Py.

(** Exceptions deriving from [Exception].  [OSError] stands for the errors
    of the operating system other than [FileNotFoundError]
    ([IsADirectoryError], [PermissionError]); [ExternalError] stands for
    any exception raised from inside a third-party collaborator. *)
Inductive Exn :=
| ValueError (msg : string)
| IndexError
| FileNotFoundError (msg : string)
| OSError (msg : string)
| NoTranscriptFound
| ExternalError (msg : string).

(** Truth value of a [str] and of a [list]. *)
Definition truthy_str (s : string) : bool :=
  match s with EmptyString => false | String _ _ => true end.

Definition truthy_list {A} (l : list A) : bool :=
  match l with [] => false | _ :: _ => true end.

(** [s.startswith(p)] *)
Definition startswith (s p : string) : bool := String.prefix p s.

(** [sub in s] *)
Fixpoint contains (sub s : string) : bool :=
  String.prefix sub s ||
  match s with
  | EmptyString => false
  | String _ rest => contains sub rest
  end.

(** [s.split(sep)] for a non-empty separator: left to right, occurrences
    do not overlap.  [skip] counts the characters of a separator occurrence
    still to be passed over, [cur] is the piece being built. *)
Fixpoint split_from (sep : string) (skip : nat) (cur s : string) : list string :=
  match s with
  | EmptyString => [cur]
  | String c rest =>
      match skip with
      | S k => split_from sep k cur rest
      | O =>
          if String.prefix sep s
          then cur :: split_from sep (String.length sep - 1) "" rest
          else split_from sep 0 (cur +:+ String c "") rest
      end
  end.

Definition split (s sep : string) : list string := split_from sep 0 "" s.

(** [l[i]] *)
Definition index {A} (l : list A) (i : nat) : Exn + A :=
  match l !! i with
  | Some x => inr x
  | None => inl IndexError
  end.

(** [sep.join(l)] *)
Fixpoint join (sep : string) (l : list string) : string :=
  match l with
  | [] => ""
  | [x] => x
  | x :: rest => x +:+ sep +:+ join sep rest
  end.

(** [s[:n]].  A [str] is held as its bytes: on ASCII text, its first [n]
    characters. *)
Definition slice_to (n : nat) (s : string) : string := String.substring 0 n s.

(** [c.isspace()] on the ASCII range; the white space Unicode has beyond
    it (U+0085, U+00A0 and the like) is not covered. *)
Definition isspace (c : ascii) : bool :=
  let n := nat_of_ascii c in
  (Nat.leb 9 n && Nat.leb n 13) || (Nat.leb 28 n && Nat.leb n 32).

Fixpoint lstrip (s : string) : string :=
  match s with
  | EmptyString => ""
  | String c rest => if isspace c then lstrip rest else s
  end.

Fixpoint rstrip (s : string) : string :=
  match s with
  | EmptyString => ""
  | String c rest =>
      match rstrip rest with
      | EmptyString => if isspace c then "" else String c ""
      | r => String c r
      end
  end.

(** [s.strip()] *)
Definition strip (s : string) : string := rstrip (lstrip s).

(** [os.path.splitext(p)[1]] on POSIX: the extension starts at the last
    dot of the last path component, unless that component has only
    leading dots before it.  [ext_of_rev] scans the reversed path: [acc]
    holds the characters after the candidate dot. *)
Fixpoint only_dots_until_sep (rev_rest : list ascii) : bool :=
  match rev_rest with
  | [] => true
  | c :: r =>
      if Ascii.eqb c "/" then true
      else if Ascii.eqb c "." then only_dots_until_sep r
      else false
  end.

Fixpoint ext_of_rev (rev_path : list ascii) (acc : list ascii) : list ascii :=
  match rev_path with
  | [] => []
  | c :: r =>
      if Ascii.eqb c "/" then []
      else if Ascii.eqb c "."
      then (if only_dots_until_sep r then [] else c :: acc)
      else ext_of_rev r (c :: acc)
  end.

Definition splitext_ext (p : string) : string :=
  string_of_list_ascii (ext_of_rev (rev (list_ascii_of_string p)) []).

(** [os.path.splitext(p)[0]] *)
Definition splitext_root (p : string) : string :=
  String.substring 0 (String.length p - String.length (splitext_ext p)) p.

(** [os.path.join(d, f)] on POSIX, for a relative [f]. *)
Definition path_join (d f : string) : string := d +:+ "/" +:+ f.

End Py.

Export Py.


(** ** Data model *)

(** [langchain.schema.document.Document] *)
Record Document := {
  page_content : string;
  metadata : list (string * string) }.

#[global] Instance Document_eq_dec : EqDecision Document.
Proof. solve_decision. Defined.

#[global] Instance Document_countable : Countable Document.
Proof.
  refine (inj_countable' (fun d => (page_content d, metadata d))
                         (fun p => Build_Document p.1 p.2) _).
  intros []; reflexivity.
Defined.

(** The vector index built by [Chroma.from_documents]: it holds the chunks
    it was built from. *)
Record Chroma := { indexed_chunks : list Document }.

(** [vector_store.as_retriever()] *)
Record Retriever := { retriever_store : Chroma }.

Definition as_retriever (vector_store : Chroma) : Retriever :=
  {| retriever_store := vector_store |}.

(** The chain returned by [create_retrieval_chain]. *)
Record RagChain := { chain_retriever : Retriever }.

(** [langchain_core.messages]: a turn of the chat history.  An [AIMessage]
    carries [additional_kwargs["context"]]. *)
Inductive Message :=
| HumanMessage (content : string)
| AIMessage (content : string) (context : list Document).

Definition is_human (m : Message) : bool :=
  match m with HumanMessage _ => true | AIMessage _ _ => false end.

(** One dictionary yielded by [rag_chain.stream]; [chunk.get(k)] is [None]
    for an absent key. *)
Record StreamChunk := {
  get_answer : option string;
  get_context : option (list Document) }.

(** An entry of [st.file_uploader]: [name], [type], [getvalue()]. *)
Record UploadedFile := {
  up_name : string;
  up_type : string;
  up_value : string }.

(** [st.session_state], with the four keys the script initialises. *)
Record SessionState := {
  rag_chain : option RagChain;
  chat_history : list Message;
  suggested_questions : list string;
  source_name : string }.

Definition initial_session : SessionState :=
  {| rag_chain := None; chat_history := [];
     suggested_questions := []; source_name := "" |}.

(** [st.session_state.k = v] *)
Definition set_rag_chain (v : option RagChain) (s : SessionState) : SessionState :=
  {| rag_chain := v; chat_history := chat_history s;
     suggested_questions := suggested_questions s; source_name := source_name s |}.

Definition set_chat_history (v : list Message) (s : SessionState) : SessionState :=
  {| rag_chain := rag_chain s; chat_history := v;
     suggested_questions := suggested_questions s; source_name := source_name s |}.

Definition set_suggested_questions (v : list string) (s : SessionState) : SessionState :=
  {| rag_chain := rag_chain s; chat_history := chat_history s;
     suggested_questions := v; source_name := source_name s |}.

Definition set_source_name (v : string) (s : SessionState) : SessionState :=
  {| rag_chain := rag_chain s; chat_history := chat_history s;
     suggested_questions := suggested_questions s; source_name := v |}.

(** ** Third-party collaborators *)

Inductive ExtResult (A : Type) :=
| ExtOk (a : A)
| ExtFail (msg : string).
Arguments ExtOk {A} a.
Arguments ExtFail {A} msg.

(** [YouTubeTranscriptApi().fetch(video_id)]: the snippet texts, the
    [NoTranscriptFound] exception, or any other exception. *)
Inductive FetchResult :=
| Fetched (snippets : list string)
| FetchNoTranscript
| FetchFailed (msg : string).

(** What [ydl.download] did: whether it raised, and the contents it left at
    the output template ([outtmpl]) and at the two names the post-processor
    can give its [.mp3]: the extension of [outtmpl] replaced, or [.mp3]
    appended to [outtmpl] (when the downloaded format is not the one the
    extension of [outtmpl] names). *)
Record DownloadOutcome := {
  dl_error : option string;
  dl_outtmpl : option string;
  dl_mp3 : option string;
  dl_appended : option string }.

Record Services := {
  ytt_fetch : string -> FetchResult;
  ydl_download : string -> DownloadOutcome;
  whisper_transcribe : string -> ExtResult (list string);
  md5_hexdigest : string -> string;
  web_base_loader : string -> ExtResult (list Document);
  pypdf_load_and_split : string -> ExtResult (list Document);
  docx2txt_load : string -> ExtResult (list Document);
  split_documents : nat -> nat -> list Document -> list Document;
  embedding_init_error : option string;
  chroma_insert_error : list Document -> option string;
  llm_init_error : option string;
  llm_invoke : string -> ExtResult string;
  re_findall : string -> string -> list string;
  chain_stream : RagChain -> string -> list Message ->
                 list StreamChunk * option string }.

(** ** The world the script runs in *)

(** Calls made to the collaborators, oldest first. *)
Inductive Event :=
| EvTranscriptFetch (video_id : string)
| EvAudioDownload (url : string)
| EvWhisperTranscribe (path : string)
| EvWebLoad (url : string)
| EvPdfLoad (path : string)
| EvDocxLoad (path : string)
| EvEmbeddingInit
| EvChromaFromDocuments (chunks : list Document)
| EvLlmInit
| EvLlmInvoke (prompt : string)
| EvChainStream (input : string).

#[global] Instance Event_eq_dec : EqDecision Event.
Proof. solve_decision. Defined.

(** What a script run puts on the page. *)
Inductive Widget :=
| Info (msg : string)
| Warning (msg : string)
| Error (msg : string)
| Toast (msg : string)
| ChattingWith (source : string)
| AssistantBubble (content : string)
| UserBubble (content : string)
| SourcesExpander (passages : list string)
| AssistantAnswer (content : string)
| SuggestionButtons (questions : list string)
| ChatInputBox.

#[global] Instance Widget_eq_dec : EqDecision Widget.
Proof. solve_decision. Defined.

(** Arguments Streamlit hashes into a cache key. *)
Inductive Arg :=
| ArgStr (s : string)
| ArgDocs (ds : list Document).

#[global] Instance Arg_eq_dec : EqDecision Arg.
Proof. solve_decision. Defined.

#[global] Instance Arg_countable : Countable Arg.
Proof.
  refine (inj_countable'
            (fun a => match a with ArgStr s => inl s | ArgDocs ds => inr ds end)
            (fun x => match x with inl s => ArgStr s | inr ds => ArgDocs ds end) _).
  intros []; reflexivity.
Defined.

(** A cached return value. *)
Inductive CacheVal :=
| CvText (t : option string)
| CvDocs (ds : list Document)
| CvQuestions (qs : list string)
| CvStore (vs : Chroma)
| CvChain (c : RagChain).

(** A Streamlit cache: function name and hashed arguments to value. *)
Abbreviation Cache := (gmap (string * list Arg) CacheVal).

(** [files] holds the regular files of the working directory and [dirs] the
    names in it that are directories. *)
Record World := {
  session_state : SessionState;
  cache_data : Cache;
  cache_resource : Cache;
  files : gmap string string;
  events : list Event;
  screen : list Widget;
  dirs : gset string }.

Definition initial_world : World :=
  {| session_state := initial_session;
     cache_data := ∅; cache_resource := ∅;
     files := ∅; events := []; screen := []; dirs := ∅ |}.

Definition with_session (f : SessionState -> SessionState) (w : World) : World :=
  {| session_state := f (session_state w);
     cache_data := cache_data w; cache_resource := cache_resource w;
     files := files w; events := events w; screen := screen w; dirs := dirs w |}.

Definition with_cache_data (f : Cache -> Cache) (w : World) : World :=
  {| session_state := session_state w;
     cache_data := f (cache_data w); cache_resource := cache_resource w;
     files := files w; events := events w; screen := screen w; dirs := dirs w |}.

Definition with_cache_resource (f : Cache -> Cache) (w : World) : World :=
  {| session_state := session_state w;
     cache_data := cache_data w; cache_resource := f (cache_resource w);
     files := files w; events := events w; screen := screen w; dirs := dirs w |}.

Definition with_files (f : gmap string string -> gmap string string)
  (w : World) : World :=
  {| session_state := session_state w;
     cache_data := cache_data w; cache_resource := cache_resource w;
     files := f (files w); events := events w; screen := screen w; dirs := dirs w |}.

Definition with_events (f : list Event -> list Event) (w : World) : World :=
  {| session_state := session_state w;
     cache_data := cache_data w; cache_resource := cache_resource w;
     files := files w; events := f (events w); screen := screen w; dirs := dirs w |}.

Definition with_screen (f : list Widget -> list Widget) (w : World) : World :=
  {| session_state := session_state w;
     cache_data := cache_data w; cache_resource := cache_resource w;
     files := files w; events := events w; screen := f (screen w); dirs := dirs w |}.

(** ** Control flow: return, exception, or [st.rerun()] *)

(** [st.rerun()] stops the script with a [BaseException] that no
    [except Exception] clause catches; it is kept apart from [Raise]. *)
Inductive Outcome (A : Type) :=
| Return (a : A)
| Raise (e : Exn)
| Rerun.
Arguments Return {A} a.
Arguments Raise {A} e.
Arguments Rerun {A}.

Definition M (A : Type) : Type := World -> Outcome A * World.

Definition ret {A} (a : A) : M A := fun w => (Return a, w).

Definition bind {A B} (m : M A) (k : A -> M B) : M B :=
  fun w =>
    match m w with
    | (Return a, w') => k a w'
    | (Raise e, w') => (Raise e, w')
    | (Rerun, w') => (Rerun, w')
    end.

Definition raise {A} (e : Exn) : M A := fun w => (Raise e, w).

Definition st_rerun {A} : M A := fun w => (Rerun, w).

Declare Scope M_scope.
Delimit Scope M_scope with M.
Notation "x <- m ;; k" := (bind m (fun x => k))
  (at level 100, m at next level, right associativity) : M_scope.
Notation "m ;; k" := (bind m (fun _ => k))
  (at level 100, right associativity) : M_scope.
#[local] Open Scope M_scope.

(** [try: body except Exception as e: handler(e)] *)
Definition try_except {A} (body : M A) (handler : Exn -> M A) : M A :=
  fun w =>
    match body w with
    | (Raise e, w') => handler e w'
    | r => r
    end.

(** [try: body finally: cleanup].  The cleanup runs on every way out of
    [body]; if it raises, its exception replaces the outcome of [body]. *)
Definition try_finally {A} (body : M A) (cleanup : M unit) : M A :=
  fun w =>
    match body w with
    | (r, w') =>
        match cleanup w' with
        | (Return _, w'') => (r, w'')
        | (Raise e, w'') => (Raise e, w'')
        | (Rerun, w'') => (Rerun, w'')
        end
    end.

(** Lifting of a pure computation that may fail, as [Py.index]. *)
Definition lift {A} (r : Exn + A) : M A :=
  match r with
  | inl e => raise e
  | inr a => ret a
  end.

(** Result of a collaborator, its failure becoming an exception. *)
Definition of_ext {A} (r : ExtResult A) : M A :=
  match r with
  | ExtOk a => ret a
  | ExtFail msg => raise (ExternalError msg)
  end.

Definition of_error (e : option string) : M unit :=
  match e with
  | None => ret tt
  | Some msg => raise (ExternalError msg)
  end.

(** [keeps_session m]: [m] does not write to [st.session_state]. *)
Definition keeps_session {A} (m : M A) : Prop :=
  forall w, session_state (m w).2 = session_state w.

(** [no_rerun m]: [m] never calls [st.rerun()]. *)
Definition no_rerun {A} (m : M A) : Prop :=
  forall w, (m w).1 <> Rerun.

(** [returns m]: [m] ends by returning a value, whatever the world. *)
Definition returns {A} (m : M A) : Prop :=
  forall w, exists a, (m w).1 = Return a.

(** [adds_no_sources m]: [m] puts no "Show Sources" expander on the page. *)
Definition adds_no_sources {A} (m : M A) : Prop :=
  forall w passages,
    SourcesExpander passages ∈ screen (m w).2 ->
    SourcesExpander passages ∈ screen w.

Definition get_session : M SessionState := fun w => (Return (session_state w), w).

Definition modify_session (f : SessionState -> SessionState) : M unit :=
  fun w => (Return tt, with_session f w).

Definition record_event (e : Event) : M unit :=
  fun w => (Return tt, with_events (fun l => (l ++ [e])%list) w).

Definition show (x : Widget) : M unit :=
  fun w => (Return tt, with_screen (fun l => (l ++ [x])%list) w).

(** *** File system *)

(** What lies at a path: a regular file, a directory, or nothing.  A name
    found both in [files] and in [dirs] counts as a file. *)
Inductive Entry :=
| File (content : string)
| Directory.

Definition entry (w : World) (path : string) : option Entry :=
  match files w !! path with
  | Some content => Some (File content)
  | None => if bool_decide (path ∈ dirs w) then Some Directory else None
  end.

(** [os.path.exists(path)]: true of a file and of a directory. *)
Definition os_path_exists (path : string) : M bool :=
  fun w => (Return (bool_decide (is_Some (entry w path))), w).

(** [os.remove(path)]: removes a file; raises an [OSError] on a directory
    and [FileNotFoundError] when nothing lies at the path. *)
Definition os_remove (path : string) : M unit :=
  fun w =>
    match entry w path with
    | Some (File _) => (Return tt, with_files (delete path) w)
    | Some Directory => (Raise (OSError path), w)
    | None => (Raise (FileNotFoundError path), w)
    end.

(** [with open(path, "wb") as f: f.write(content)]: the file holds
    [content] afterwards.  A failure to open the file is not modelled. *)
Definition write_file (path content : string) : M unit :=
  fun w => (Return tt, with_files (<[path := content]>) w).

(** Reading the bytes at [path], as the loaders and the speech-to-text
    model do. *)
Definition read_file (path : string) : M string :=
  fun w =>
    match entry w path with
    | Some (File c) => (Return c, w)
    | Some Directory => (Raise (OSError path), w)
    | None => (Raise (FileNotFoundError path), w)
    end.

(** *** Streamlit caches *)

(** [@st.cache_data] and [@st.cache_resource]: a call whose key is in the
    cache returns the stored value without running the body; otherwise the
    body runs and its return value is stored.  Exceptions are not cached.
    [inj] and [proj] wrap and unwrap the value type of the function. *)
Definition st_cache_data {A} (inj : A -> CacheVal) (proj : CacheVal -> option A)
  (name : string) (key : list Arg) (body : M A) : M A :=
  fun w =>
    match cache_data w !! (name, key) ≫= proj with
    | Some v => (Return v, w)
    | None =>
        match body w with
        | (Return v, w') =>
            (Return v, with_cache_data (<[(name, key) := inj v]>) w')
        | r => r
        end
    end.

Definition st_cache_resource {A} (inj : A -> CacheVal) (proj : CacheVal -> option A)
  (name : string) (key : list Arg) (body : M A) : M A :=
  fun w =>
    match cache_resource w !! (name, key) ≫= proj with
    | Some v => (Return v, w)
    | None =>
        match body w with
        | (Return v, w') =>
            (Return v, with_cache_resource (<[(name, key) := inj v]>) w')
        | r => r
        end
    end.

(** [st.cache_data.clear()], [st.cache_resource.clear()] *)
Definition st_cache_data_clear : M unit :=
  fun w => (Return tt, with_cache_data (fun _ => ∅) w).

Definition st_cache_resource_clear : M unit :=
  fun w => (Return tt, with_cache_resource (fun _ => ∅) w).

Definition proj_text (v : CacheVal) : option (option string) :=
  match v with CvText t => Some t | _ => None end.
Definition proj_docs (v : CacheVal) : option (list Document) :=
  match v with CvDocs ds => Some ds | _ => None end.
Definition proj_questions (v : CacheVal) : option (list string) :=
  match v with CvQuestions qs => Some qs | _ => None end.
Definition proj_store (v : CacheVal) : option Chroma :=
  match v with CvStore vs => Some vs | _ => None end.
Definition proj_chain (v : CacheVal) : option RagChain :=
  match v with CvChain c => Some c | _ => None end.

(** ** [src/video_processor.py] *)

Module video_processor.
Section WithServices.
Variable ext : Services.

(** [ytt_api.fetch(video_id)] *)
Definition ytt_api_fetch (video_id : string) : M (list string) :=
  record_event (EvTranscriptFetch video_id) ;;
  match ytt_fetch ext video_id with
  | Fetched snippets => ret snippets
  | FetchNoTranscript => raise NoTranscriptFound
  | FetchFailed msg => raise (ExternalError msg)
  end.

Definition write_opt (path : string) (content : option string) : M unit :=
  match content with
  | Some c => write_file path c
  | None => ret tt
  end.

(** [yt_dlp.YoutubeDL(ydl_opts).download([url])]: the download goes to
    [outtmpl]; the [FFmpegExtractAudio] post-processor writes its [.mp3]
    under the name of [outtmpl] with the extension replaced, or with
    [.mp3] appended. *)
Definition ydl_download_to (outtmpl url : string) : M unit :=
  record_event (EvAudioDownload url) ;;
  let o := ydl_download ext url in
  write_opt outtmpl (dl_outtmpl o) ;;
  write_opt (Py.splitext_root outtmpl +:+ ".mp3") (dl_mp3 o) ;;
  write_opt (outtmpl +:+ ".mp3") (dl_appended o) ;;
  of_error (dl_error o).

(** [WhisperModel("base", ...).transcribe(path, beam_size=5)] *)
Definition whisper_model_transcribe (path : string) : M (list string) :=
  record_event (EvWhisperTranscribe path) ;;
  audio <- read_file path ;;
  of_ext (whisper_transcribe ext audio).

Definition remove_if_exists (path : string) : M unit :=
  found <- os_path_exists path ;;
  if found then os_remove path else ret tt.

Definition _transcribe_audio_with_whisper (youtube_url : string) : M (option string) :=
  st_cache_data CvText proj_text "_transcribe_audio_with_whisper" [ArgStr youtube_url]
    (let audio_file := "temp_audio.mp4" in
     try_finally
       (try_except
          (ydl_download_to audio_file youtube_url ;;
           let audio_file_mp3 := "temp_audio.mp3" in
           found <- os_path_exists audio_file_mp3 ;;
           if negb found
           then raise (FileNotFoundError "Audio file was not created after download.")
           else
             segments <- whisper_model_transcribe audio_file_mp3 ;;
             let transcription := Py.join "" segments in
             ret (Some transcription))
          (fun e => ret None))
       (let audio_file_mp3 := "temp_audio.mp3" in
        remove_if_exists audio_file_mp3)).

(** [youtube_url.split("v=")[1].split("&")[0]] *)
Definition video_id_of (youtube_url : string) : Exn + string :=
  match Py.index (Py.split youtube_url "v=") 1 with
  | inl e => inl e
  | inr after_v => Py.index (Py.split after_v "&") 0
  end.

Definition get_video_transcript (youtube_url : string) : M (option string) :=
  st_cache_data CvText proj_text "get_video_transcript" [ArgStr youtube_url]
    (try_except
       (video_id <- lift (video_id_of youtube_url) ;;
        transcript_list <- ytt_api_fetch video_id ;;
        let transcript := Py.join " " transcript_list in
        ret (Some transcript))
       (fun e =>
          match e with
          | NoTranscriptFound => _transcribe_audio_with_whisper youtube_url
          | _ => ret None
          end)).


End WithServices.
End video_processor.

(** ** [src/data_loader.py] *)

Module data_loader.
Section WithServices.
Variable ext : Services.

Definition load_from_webpage (url : string) : M (list Document) :=
  st_cache_data CvDocs proj_docs "load_from_webpage" [ArgStr url]
    (record_event (EvWebLoad url) ;;
     of_ext (web_base_loader ext url)).

Definition load_from_pdf (file_path : string) : M (list Document) :=
  st_cache_data CvDocs proj_docs "load_from_pdf" [ArgStr file_path]
    (record_event (EvPdfLoad file_path) ;;
     bytes <- read_file file_path ;;
     of_ext (pypdf_load_and_split ext bytes)).

Definition load_from_docx (file_path : string) : M (list Document) :=
  st_cache_data CvDocs proj_docs "load_from_docx" [ArgStr file_path]
    (record_event (EvDocxLoad file_path) ;;
     bytes <- read_file file_path ;;
     of_ext (docx2txt_load ext bytes)).

End WithServices.
End data_loader.

(** ** [src/vector_store.py] *)

Module vector_store.
Section WithServices.
Variable ext : Services.

Definition chunk_size : nat := 1000.
Definition chunk_overlap : nat := 200.

Definition create_vector_store (documents : list Document) : M Chroma :=
  st_cache_resource CvStore proj_store "create_vector_store" [ArgDocs documents]
    (if negb (truthy_list documents)
     then raise (ValueError "Cannot create vector store from empty documents list.")
     else
       let chunks := split_documents ext chunk_size chunk_overlap documents in
       if negb (truthy_list chunks)
       then raise (ValueError "Documents could not be split into chunks.")
       else
         record_event EvEmbeddingInit ;;
         of_error (embedding_init_error ext) ;;
         record_event (EvChromaFromDocuments chunks) ;;
         of_error (chroma_insert_error ext chunks) ;;
         ret {| indexed_chunks := chunks |}).

End WithServices.
End vector_store.

(** ** [src/rag_pipeline.py] *)

Module rag_pipeline.
Section WithServices.
Variable ext : Services.

(** The parameter is named [_retriever]: Streamlit leaves arguments whose
    name starts with an underscore out of the cache key. *)
Definition create_rag_chain (_retriever : Retriever) : M RagChain :=
  st_cache_resource CvChain proj_chain "create_rag_chain" []
    (try_except
       (record_event EvLlmInit ;;
        of_error (llm_init_error ext))
       (fun e => raise e) ;;
     ret {| chain_retriever := _retriever |}).

End WithServices.
End rag_pipeline.

(** ** [app.py] *)

Module app.
Section WithServices.
Variable ext : Services.

Definition nl : string := String "010"%char "".
Definition triple_quote : string :=
  let q := "034"%char in String q (String q (String q "")).

Definition suggestion_prompt (combined_content : string) : string :=
  "Based on the following text, generate 3 concise, insightful questions a user might want to ask. The questions should be distinct."
  +:+ nl +:+ nl +:+ "Text:" +:+ nl
  +:+ triple_quote +:+ combined_content +:+ triple_quote
  +:+ nl +:+ nl +:+ "Questions:".

Definition suggestion_pattern : string := "\d+\.\s*(.*?)(?=\n\d+\.|$)".

(** The parameter is named [_docs]: it is left out of the cache key. *)
Definition generate_suggested_questions (_docs : list Document) : M (list string) :=
  st_cache_data CvQuestions proj_questions "generate_suggested_questions" []
    (if negb (truthy_list _docs) then ret []
     else
       let combined_content :=
         Py.slice_to 4000 (Py.join " " (map page_content (take 3 _docs))) in
       let prompt := suggestion_prompt combined_content in
       try_except
         (record_event EvLlmInit ;;
          of_error (llm_init_error ext) ;;
          record_event (EvLlmInvoke prompt) ;;
          response <- of_ext (llm_invoke ext prompt) ;;
          let questions := re_findall ext suggestion_pattern response in
          ret (map Py.strip
                 (List.filter (fun q => truthy_str (Py.strip q)) questions)))
         (fun e => ret [])).

(** The questions [generate_suggested_questions] computes when its body
    runs, as a function of the documents: only the first three are read. *)
Definition fresh_suggestions (_docs : list Document) : list string :=
  if negb (truthy_list _docs) then []
  else
    match llm_init_error ext with
    | Some _ => []
    | None =>
        let combined_content :=
          Py.slice_to 4000 (Py.join " " (map page_content (take 3 _docs))) in
        match llm_invoke ext (suggestion_prompt combined_content) with
        | ExtOk response =>
            map Py.strip
              (List.filter (fun q => truthy_str (Py.strip q))
                 (re_findall ext suggestion_pattern response))
        | ExtFail _ => []
        end
    end.

Definition temp_dir : string := "temp_docs_cache".

Definition temp_path_of (file_content file_name : string) : string :=
  let file_hash := md5_hexdigest ext file_content in
  let file_extension := Py.splitext_ext file_name in
  Py.path_join temp_dir (file_hash +:+ file_extension).

Definition pdf_type : string := "application/pdf".
Definition docx_type : string :=
  "application/vnd.openxmlformats-officedocument.wordprocessingml.document".

(** [os.makedirs(temp_dir, exist_ok=True)] has no counterpart: a path is
    a flat name here, and no file is looked up through its directory. *)
Definition load_and_cache_document (file_content file_name file_type : string)
  : M (list Document) :=
  st_cache_data CvDocs proj_docs "load_and_cache_document"
    [ArgStr file_content; ArgStr file_name; ArgStr file_type]
    (let temp_path := temp_path_of file_content file_name in
     write_file temp_path file_content ;;
     try_finally
       (if String.eqb file_type pdf_type
        then data_loader.load_from_pdf ext temp_path
        else if String.eqb file_type docx_type
        then data_loader.load_from_docx ext temp_path
        else ret [])
       (video_processor.remove_if_exists temp_path)).

Definition process_new_source (source_docs : list Document) (source_name : string)
  : M unit :=
  st_cache_resource_clear ;;
  st_cache_data_clear ;;
  vector_store <- vector_store.create_vector_store ext source_docs ;;
  chain <- rag_pipeline.create_rag_chain ext (as_retriever vector_store) ;;
  modify_session (set_rag_chain (Some chain)) ;;
  modify_session (set_chat_history []) ;;
  modify_session (set_source_name source_name) ;;
  questions <- generate_suggested_questions source_docs ;;
  modify_session (set_suggested_questions questions) ;;
  show (Toast ("Ready to chat with " +:+ source_name +:+ "!")).

(** *** Sidebar *)

(** What the user did on the page that triggered this run of the script. *)
Inductive Action :=
| Idle
| ProcessURL (url : string)
| ProcessDocuments (uploaded_files : list UploadedFile)
| ClickSuggestion (i : nat)
| ChatInput (prompt : string).

Definition process_url (url : string) : M unit :=
  if truthy_str url then
    docs <-
      (if Py.contains "youtube.com" url || Py.contains "youtu.be" url then
         transcript <- video_processor.get_video_transcript ext url ;;
         match transcript with
         | Some t =>
             if truthy_str t
             then ret [ {| page_content := t; metadata := [] |} ]
             else ret []
         | None => ret []
         end
       else data_loader.load_from_webpage ext url) ;;
    if truthy_list docs
    then process_new_source docs url ;; st_rerun
    else show (Error "Could not retrieve content.")
  else show (Warning "Please enter a URL.").

Fixpoint load_uploaded (uploaded_files : list UploadedFile)
  (all_docs : list Document) : M (list Document) :=
  match uploaded_files with
  | [] => ret all_docs
  | up_file :: rest =>
      let file_content := up_value up_file in
      docs <- load_and_cache_document file_content (up_name up_file) (up_type up_file) ;;
      load_uploaded rest (all_docs ++ docs)%list
  end.

Definition process_documents (uploaded_files : list UploadedFile) : M unit :=
  if truthy_list uploaded_files then
    let source_name := Py.join ", " (map up_name uploaded_files) in
    all_docs <- load_uploaded uploaded_files [] ;;
    if truthy_list all_docs
    then process_new_source all_docs source_name ;; st_rerun
    else show (Error "Could not extract content.")
  else show (Warning "Please upload at least one document.").

Definition sidebar (a : Action) : M unit :=
  match a with
  | ProcessURL url => process_url url
  | ProcessDocuments uploaded_files => process_documents uploaded_files
  | _ => ret tt
  end.

(** *** Main chat interface *)

Definition context_marker : string := "Based on the provided context:".

(** The cursor drawn after a partial answer: U+258C, in UTF-8. *)
Definition cursor : string :=
  String "226"%char (String "150"%char (String "140"%char "")).

Definition render_message (msg : Message) : list Widget :=
  match msg with
  | AIMessage content context =>
      AssistantBubble content ::
      (if Py.startswith content context_marker && truthy_list context
       then [SourcesExpander (map page_content context)]
       else [])
  | HumanMessage content => [UserBubble content]
  end.

Definition render_history : M unit :=
  fun w =>
    (Return tt,
     with_screen
       (fun l => (l ++ concat (map render_message (chat_history (session_state w))))%list)
       w).

(** The [for chunk in response_stream] loop. *)
Fixpoint consume (chunks : list StreamChunk) (full_response : string)
  (context_docs : list Document) : string * list Document :=
  match chunks with
  | [] => (full_response, context_docs)
  | chunk :: rest =>
      let full_response :=
        match get_answer chunk with
        | Some answer_chunk =>
            if truthy_str answer_chunk
            then full_response +:+ answer_chunk else full_response
        | None => full_response
        end in
      let context_docs :=
        match get_context chunk with
        | Some context_chunk =>
            if truthy_list context_chunk then context_chunk else context_docs
        | None => context_docs
        end in
      consume rest full_response context_docs
  end.

(** [st.session_state.chat_history.append(m)] *)
Definition append_message (m : Message) : M unit :=
  modify_session (fun s => set_chat_history (chat_history s ++ [m])%list s).

(** The block that answers a pending question.  The placeholder holds the
    last thing drawn into it: the full answer when the stream ends well;
    when the stream breaks, the partial answer followed by the cursor, if
    an answer piece had been drawn. *)
Definition response_streaming (chain : RagChain) : M unit :=
  s <- get_session ;;
  match last (chat_history s) with
  | Some (HumanMessage prompt) =>
      record_event (EvChainStream prompt) ;;
      let stream :=
        chain_stream ext chain prompt
          (take (length (chat_history s) - 1) (chat_history s)) in
      let result := consume stream.1 "" [] in
      match stream.2 with
      | Some _ =>
          if truthy_str result.1
          then show (AssistantAnswer (result.1 +:+ cursor))
          else ret tt
      | None => ret tt
      end ;;
      of_error stream.2 ;;
      let full_response := result.1 in
      let context_docs := result.2 in
      show (AssistantAnswer full_response) ;;
      append_message (AIMessage full_response context_docs) ;;
      modify_session (set_suggested_questions []) ;;
      st_rerun
  | _ => ret tt
  end.

Definition suggested_questions_block (a : Action) : M unit :=
  s <- get_session ;;
  if truthy_list (suggested_questions s) then
    show (SuggestionButtons (suggested_questions s)) ;;
    match a with
    | ClickSuggestion i =>
        match suggested_questions s !! i with
        | Some q => append_message (HumanMessage q) ;; st_rerun
        | None => ret tt
        end
    | _ => ret tt
    end
  else ret tt.

Definition chat_input_block (a : Action) : M unit :=
  show ChatInputBox ;;
  match a with
  | ChatInput prompt =>
      if truthy_str prompt
      then append_message (HumanMessage prompt) ;; st_rerun
      else ret tt
  | _ => ret tt
  end.

Definition main_chat_interface (a : Action) : M unit :=
  s <- get_session ;;
  match rag_chain s with
  | None =>
      show (Info "Please process a data source from the sidebar to start a conversation.")
  | Some chain =>
      show (ChattingWith (source_name s)) ;;
      render_history ;;
      response_streaming chain ;;
      suggested_questions_block a ;;
      chat_input_block a
  end.

(** No turn of the history is waiting for its answer: the state in which
    the page offers the chat input. *)
Definition settled (w : World) : Prop :=
  forall p, last (chat_history (session_state w)) <> Some (HumanMessage p).

(** One execution of the script, top to bottom. *)
Definition script (a : Action) : M unit :=
  sidebar a ;;
  main_chat_interface a.

(** How a user interaction ends: the script ran to its end, or stopped on
    an uncaught exception. *)
Inductive RunStatus :=
| Completed
| Failed (e : Exn)
| OutOfFuel.

(** A user interaction: the script runs on a fresh page; [st.rerun()]
    starts it again, the widgets now at rest. *)
Fixpoint run (fuel : nat) (a : Action) (w : World) : RunStatus * World :=
  match fuel with
  | O => (OutOfFuel, w)
  | S fuel' =>
      match script a (with_screen (fun _ => []) w) with
      | (Return _, w') => (Completed, w')
      | (Raise e, w') => (Failed e, w')
      | (Rerun, w') => run fuel' Idle w'
      end
  end.

(** No interaction needs more than three runs: one that appends the
    question, one that answers it, one that redraws the page. *)
Definition interact (a : Action) (w : World) : RunStatus * World := run 3 a w.

(** Session Coordinator operations of the specification. *)
Definition ask (q : string) (w : World) : RunStatus * World :=
  interact (ChatInput q) w.

End WithServices.
End app.

(** ** The text splitter *)

Module text_splitter.

Section Windows.
Context {A : Type}.
Variables (size overlap : nat).

(** Modelled from the spec: [RecursiveCharacterTextSplitter] belongs to a
    third-party package and is not part of the sources.  The specification
    describes chunking as a sliding window over the characters of a
    segment: windows of [size] characters, each starting [size - overlap]
    characters after its predecessor, the last one holding what remains;
    an empty text has no chunk.  [fuel] bounds the number of windows. *)
Fixpoint windows (fuel : nat) (text : list A) : list (list A) :=
  match fuel with
  | O => []
  | S fuel' =>
      match text with
      | [] => []
      | _ :: _ =>
          if decide (length text <= size) then [text]
          else take size text :: windows fuel' (drop (size - overlap) text)
      end
  end.

Definition split_chars (text : list A) : list (list A) :=
  windows (length text) text.

(** Reconstruction by removing the overlaps: the first chunk, then every
    later chunk without its first [overlap] characters. *)
Definition merge_chunks (chunks : list (list A)) : list A :=
  match chunks with
  | [] => []
  | c :: rest => c ++ concat (map (drop overlap) rest)
  end.

End Windows.

(** Modelled from the spec: the chunks of a segment keep the metadata of
    the segment; the chunks of a list of segments are those of each segment,
    in order. *)
Definition split_text (size overlap : nat) (text : string) : list string :=
  map string_of_list_ascii (split_chars size overlap (list_ascii_of_string text)).

Definition split_document (size overlap : nat) (d : Document) : list Document :=
  map (fun c => {| page_content := c; metadata := metadata d |})
      (split_text size overlap (page_content d)).

Definition split_documents (size overlap : nat) (documents : list Document)
  : list Document :=
  concat (map (split_document size overlap) documents).

Definition merge_text (overlap : nat) (chunks : list string) : string :=
  string_of_list_ascii (merge_chunks overlap (map list_ascii_of_string chunks)).

(** [ceil(a / b)] on integers, for [0 < b]. *)
Definition ceil_div (a b : Z) : Z := (- ((- a) / b))%Z.

End text_splitter.

(** ** A concrete set of collaborators

    The scenarios below run the application against scripted collaborators:
    a captioned video, a video without captions whose audio converts, one
    whose conversion fails after the download, pages and documents that
    load or fail, and a chain that answers from the context, from general
    knowledge, or breaks in mid-stream. *)

Module scenario.

Definition doc (text : string) : Document :=
  {| page_content := text; metadata := [] |}.

Definition fetch (video_id : string) : FetchResult :=
  if String.eqb video_id "captioned"
  then Fetched ["Paris is the capital"; "of France."]
  else if Py.startswith video_id "silent" then FetchNoTranscript
  else FetchFailed "video unavailable".

Definition download (url : string) : DownloadOutcome :=
  if Py.contains "silent-ok" url
  then {| dl_error := None; dl_outtmpl := None; dl_mp3 := Some "mp3 audio";
          dl_appended := None |}
  else if Py.contains "silent-webm" url
  then {| dl_error := None; dl_outtmpl := None; dl_mp3 := None;
          dl_appended := Some "mp3 audio" |}
  else {| dl_error := Some "ffmpeg not found";
          dl_outtmpl := Some "m4a audio"; dl_mp3 := None;
          dl_appended := None |}.

Definition web (url : string) : ExtResult (list Document) :=
  if Py.contains "unreachable" url then ExtFail "connection refused"
  else if Py.contains "empty" url then ExtOk [doc ""]
  else ExtOk [doc "Paris is the capital of France."].

Definition pdf (bytes : string) : ExtResult (list Document) :=
  if Py.startswith bytes "%PDF" then ExtOk [doc "Page one."; doc "Page two."]
  else ExtFail "not a PDF file".

Definition stream (chain : RagChain) (input : string) (history : list Message)
  : list StreamChunk * option string :=
  let retrieved :=
    {| get_answer := None;
       get_context := Some (indexed_chunks (retriever_store (chain_retriever chain))) |} in
  let say (text : string) := {| get_answer := Some text; get_context := None |} in
  if Py.contains "capital" input
  then ([retrieved; say "Based on the provided context: "; say "Paris."], None)
  else if Py.contains "crash" input
  then ([retrieved; say "Based on"], Some "model overloaded")
  else ([retrieved; say "Based on general knowledge: "; say "about 2 million."], None).

Definition services : Services :=
  {| ytt_fetch := fetch;
     ydl_download := download;
     whisper_transcribe := fun _ => ExtOk [" Paris is"; " the capital."];
     md5_hexdigest := fun _ => "0cc175b9c0f1b6a831c399e269772661";
     web_base_loader := web;
     pypdf_load_and_split := pdf;
     docx2txt_load := fun bytes => ExtOk [doc bytes];
     split_documents := text_splitter.split_documents;
     embedding_init_error := None;
     chroma_insert_error := fun _ => None;
     llm_init_error := None;
     llm_invoke := fun _ => ExtOk "What is the capital of France? | Where is Paris? | ";
     re_findall := fun _ response => Py.split response "|";
     chain_stream := stream |}.

Definition france_chain : RagChain :=
  {| chain_retriever :=
       as_retriever {| indexed_chunks := [doc "Paris is the capital of France."] |} |}.

(** A session in which the page about France has been processed. *)
Definition indexed_world : World :=
  {| session_state :=
       {| rag_chain := Some france_chain;
          chat_history := [];
          suggested_questions :=
            ["What is the capital of France?"; "Where is Paris?"];
          source_name := "https://example.org/france" |};
     cache_data := ∅; cache_resource := ∅; files := ∅;
     events := []; screen := []; dirs := ∅ |}.

(** The same session after a first question has been answered. *)
Definition chatted_world : World :=
  {| session_state :=
       {| rag_chain := Some france_chain;
          chat_history :=
            [HumanMessage "How many people live in Paris?";
             AIMessage "Based on general knowledge: about 2 million."
               [doc "Paris is the capital of France."]];
          suggested_questions := [];
          source_name := "https://example.org/france" |};
     cache_data := ∅; cache_resource := ∅; files := ∅;
     events := []; screen := []; dirs := ∅ |}.

(** The same session after a second question, answered from the context. *)
Definition answered_world : World :=
  {| session_state :=
       {| rag_chain := Some france_chain;
          chat_history :=
            [HumanMessage "How many people live in Paris?";
             AIMessage "Based on general knowledge: about 2 million."
               [doc "Paris is the capital of France."];
             HumanMessage "What is the capital of France?";
             AIMessage "Based on the provided context: Paris."
               [doc "Paris is the capital of France."]];
          suggested_questions := [];
          source_name := "https://example.org/france" |};
     cache_data := ∅; cache_resource := ∅; files := ∅;
     events := []; screen := []; dirs := ∅ |}.

(** The same session with a question whose answer is still to come. *)
Definition pending_world : World :=
  {| session_state :=
       {| rag_chain := Some france_chain;
          chat_history := [HumanMessage "What is the capital of France?"];
          suggested_questions :=
            ["What is the capital of France?"; "Where is Paris?"];
          source_name := "https://example.org/france" |};
     cache_data := ∅; cache_resource := ∅; files := ∅;
     events := []; screen := []; dirs := ∅ |}.

(** A working directory in which the name [temp_audio.mp3] is taken by a
    directory. *)
Definition blocked_world : World :=
  {| session_state := initial_session;
     cache_data := ∅; cache_resource := ∅; files := ∅;
     events := []; screen := []; dirs := {["temp_audio.mp3"]} |}.


Definition broken_video : string := "https://www.youtube.com/watch?v=silent-broken".


End scenario.

(** * Properties *)

#[local] Open Scope list_scope.
#[local] Open Scope M_scope.

(** ** Running the monad *)

Lemma bind_run {A B} (m : M A) (k : A -> M B) (w : World) :
  bind m k w =
    match m w with
    | (Return a, w') => k a w'
    | (Raise e, w') => (Raise e, w')
    | (Rerun, w') => (Rerun, w')
    end.
Proof. reflexivity. Qed.

Lemma st_cache_data_miss {A} (inj : A -> CacheVal) proj name key (body : M A) w :
  cache_data w !! (name, key) = None ->
  st_cache_data inj proj name key body w =
    match body w with
    | (Return v, w') => (Return v, with_cache_data (<[(name, key) := inj v]>) w')
    | r => r
    end.
Proof. intros H. unfold st_cache_data. rewrite H. reflexivity. Qed.

Lemma st_cache_resource_miss {A} (inj : A -> CacheVal) proj name key (body : M A) w :
  cache_resource w !! (name, key) = None ->
  st_cache_resource inj proj name key body w =
    match body w with
    | (Return v, w') => (Return v, with_cache_resource (<[(name, key) := inj v]>) w')
    | r => r
    end.
Proof. intros H. unfold st_cache_resource. rewrite H. reflexivity. Qed.

(** ** The sliding window *)

Section WindowFacts.
Context {A : Type}.
Variables (size overlap : nat).
Hypothesis overlap_lt_size : overlap < size.

Abbreviation windows := (text_splitter.windows (A:=A) size overlap).
Abbreviation merge_chunks := (text_splitter.merge_chunks (A:=A) overlap).

Lemma windows_nil fuel : windows fuel [] = [].
Proof. destruct fuel; reflexivity. Qed.

Lemma windows_short fuel (text : list A) :
  text <> [] -> length text <= size -> windows (S fuel) text = [text].
Proof.
  intros Hne Hle. destruct text as [|a text]; [congruence|].
  cbn [text_splitter.windows]. destruct (decide _); [reflexivity | lia].
Qed.

Lemma windows_long fuel (text : list A) :
  size < length text ->
  windows (S fuel) text =
    take size text :: windows fuel (drop (size - overlap) text).
Proof.
  intros Hlt. destruct text as [|a text]; [simpl in Hlt; lia|].
  cbn [text_splitter.windows]. destruct (decide _); [lia | reflexivity].
Qed.

(** Fuel beyond the length of the text changes nothing: [split_chars]
    computes all the windows of the text. *)
Lemma windows_fuel fuel1 fuel2 (text : list A) :
  length text <= fuel1 -> length text <= fuel2 ->
  windows fuel1 text = windows fuel2 text.
Proof.
  revert fuel2 text. induction fuel1 as [|fuel1 IH]; intros fuel2 text H1 H2.
  { destruct text; [by rewrite !windows_nil | simpl in H1; lia]. }
  destruct text as [|a text]; [by rewrite !windows_nil|].
  destruct fuel2 as [|fuel2]; [simpl in H2; lia|].
  destruct (decide (length (a :: text) <= size)) as [Hle|Hgt].
  - by rewrite !windows_short.
  - rewrite !windows_long by lia. f_equal.
    apply IH; rewrite length_drop; simpl in *; lia.
Qed.

Lemma windows_bounds fuel (text : list A) :
  Forall (fun c => 0 < length c <= size) (windows fuel text).
Proof.
  revert text. induction fuel as [|fuel IH]; intros text; [constructor|].
  destruct text as [|a text]; [constructor|].
  destruct (decide (length (a :: text) <= size)) as [Hle|Hgt].
  - rewrite windows_short by done. constructor; [simpl in *; lia | constructor].
  - rewrite windows_long by lia. constructor; [|apply IH].
    rewrite length_take. simpl in *. lia.
Qed.

Lemma windows_head fuel (text : list A) :
  text <> [] -> length text <= fuel ->
  exists rest, windows fuel text = take size text :: rest.
Proof.
  intros Hne Hfuel. destruct fuel as [|fuel].
  - destruct text; [congruence | simpl in Hfuel; lia].
  - destruct (decide (length text <= size)) as [Hle|Hgt].
    + rewrite windows_short by done. exists []. by rewrite take_ge.
    + rewrite windows_long by lia. eauto.
Qed.

Lemma windows_overlap fuel (text : list A) i c1 c2 :
  length text <= fuel ->
  windows fuel text !! i = Some c1 ->
  windows fuel text !! S i = Some c2 ->
  drop (length c1 - overlap) c1 = take overlap c2 /\ overlap < length c2.
Proof.
  revert text i. induction fuel as [|fuel IH]; intros text i Hfuel H1 H2;
    [discriminate|].
  destruct text as [|a text]; [discriminate|].
  destruct (decide (length (a :: text) <= size)) as [Hle|Hgt].
  { rewrite windows_short in H2 by done. discriminate. }
  rewrite windows_long in H1, H2 by lia.
  set (text' := drop (size - overlap) (a :: text)) in *.
  assert (Hlen' : length text' = length (a :: text) - (size - overlap))
    by apply length_drop.
  destruct i as [|i].
  - injection H1 as <-. cbn in H2.
    destruct (windows_head fuel text') as [rest Hrest].
    { intros E. rewrite E in Hlen'. simpl in *. lia. }
    { simpl in *. lia. }
    rewrite Hrest in H2. injection H2 as <-.
    rewrite !length_take, take_take. split; [|lia].
    replace (length (a :: text) `min` size) with size by lia.
    replace (size `min` length (a :: text) - overlap) with (size - overlap) by lia.
    replace (overlap `min` size) with overlap by lia.
    subst text'. rewrite take_drop_commute. f_equal. f_equal. lia.
  - cbn in H1, H2. apply (IH text' i); [simpl in *; lia | done | done].
Qed.

Lemma windows_merge fuel (text : list A) :
  length text <= fuel -> merge_chunks (windows fuel text) = text.
Proof.
  revert text. induction fuel as [|fuel IH]; intros text Hfuel.
  { destruct text; [reflexivity | simpl in Hfuel; lia]. }
  destruct text as [|a text]; [reflexivity|].
  destruct (decide (length (a :: text) <= size)) as [Hle|Hgt].
  { rewrite windows_short by done. simpl. by rewrite app_nil_r. }
  rewrite windows_long by lia.
  set (text' := drop (size - overlap) (a :: text)) in *.
  assert (Hlen' : length text' = length (a :: text) - (size - overlap))
    by apply length_drop.
  assert (IH' : merge_chunks (windows fuel text') = text')
    by (apply IH; simpl in *; lia).
  destruct (windows_head fuel text') as [rest Hrest].
  { intros E. rewrite E in Hlen'. simpl in *. lia. }
  { simpl in *. lia. }
  rewrite Hrest in IH' |- *.
  unfold text_splitter.merge_chunks in IH' |- *.
  transitivity (take size (a :: text) ++ drop size (a :: text));
    [|apply take_drop].
  f_equal. cbn [map concat].
  replace (drop size (a :: text)) with (drop overlap text').
  2:{ subst text'. rewrite drop_drop. f_equal. lia. }
  rewrite <- IH' at 2. rewrite drop_app_le; [reflexivity|].
  rewrite length_take. simpl in *. lia.
Qed.

Lemma windows_count fuel (text : list A) :
  length text <= fuel ->
  length (windows fuel text) =
    if decide (length text <= overlap)
    then (if decide (length text = 0) then 0 else 1)
    else (length text - overlap + (size - overlap) - 1) / (size - overlap).
Proof.
  revert text. induction fuel as [|fuel IH]; intros text Hfuel.
  { destruct text; [|simpl in Hfuel; lia]. simpl.
    destruct (decide (0 <= overlap)); [reflexivity | lia]. }
  destruct text as [|a text].
  { simpl. destruct (decide (0 <= overlap)); [reflexivity | lia]. }
  set (step := size - overlap). assert (0 < step) by (subst step; lia).
  destruct (decide (length (a :: text) <= size)) as [Hle|Hgt].
  - rewrite windows_short by done. cbn [length] in *.
    destruct (decide (S (length text) <= overlap)).
    + destruct (decide (S (length text) = 0)); [lia | reflexivity].
    + apply Nat.div_unique with (r := S (length text) - overlap - 1); lia.
  - rewrite windows_long by lia. cbn [length] in *.
    rewrite IH by (rewrite length_drop; simpl; lia).
    rewrite length_drop. cbn [length]. fold step.
    destruct (decide (S (length text) <= overlap)); [lia|].
    destruct (decide (S (length text) - step <= overlap)); [lia|].
    replace (S (length text) - overlap + step - 1)
      with ((S (length text) - step - overlap + step - 1) + 1 * step) by lia.
    rewrite Nat.div_add by lia. lia.
Qed.

End WindowFacts.

(** ** Strings as lists of characters *)

Lemma map_as_fmap {A B} (f : A -> B) (l : list A) : map f l = f <$> l.
Proof. induction l as [|a l IH]; [reflexivity | simpl; by rewrite IH]. Qed.

Lemma length_list_ascii_of_string (s : string) :
  length (list_ascii_of_string s) = String.length s.
Proof. induction s as [|c s IH]; [reflexivity | simpl; by rewrite IH]. Qed.

Lemma length_string_of_list_ascii (l : list ascii) :
  String.length (string_of_list_ascii l) = length l.
Proof. induction l as [|c l IH]; [reflexivity | simpl; by rewrite IH]. Qed.

Lemma substring_take_drop (n m : nat) (l : list ascii) :
  String.substring n m (string_of_list_ascii l) =
    string_of_list_ascii (take m (drop n l)).
Proof.
  revert n m. induction l as [|c l IH]; intros n m.
  - destruct n, m; reflexivity.
  - destruct n as [|n].
    + destruct m as [|m]; [reflexivity|]. simpl. f_equal. apply (IH 0 m).
    + simpl. apply IH.
Qed.

(** ** Chunking with size 1000 and overlap 200 *)

Lemma ceil_div_nat (a b : nat) :
  0 < b -> 0 < a ->
  text_splitter.ceil_div (Z.of_nat a) (Z.of_nat b) = Z.of_nat ((a + b - 1) / b).
Proof.
  intros Hb Ha. unfold text_splitter.ceil_div.
  rewrite Nat2Z.inj_div, Nat2Z.inj_sub, Nat2Z.inj_add by lia.
  set (x := Z.of_nat a). set (y := Z.of_nat b).
  assert (0 < y)%Z by lia. assert (0 < x)%Z by lia.
  pose proof (Z.div_mod (- x) y ltac:(lia)) as E1.
  pose proof (Z.mod_pos_bound (- x) y ltac:(lia)) as B1.
  pose proof (Z.div_mod (x + y - 1) y ltac:(lia)) as E2.
  pose proof (Z.mod_pos_bound (x + y - 1) y ltac:(lia)) as B2.
  nia.
Qed.

Lemma ceil_div_nonpos (a b : Z) :
  (0 < b)%Z -> (- b < a <= 0)%Z -> text_splitter.ceil_div a b = 0%Z.
Proof.
  intros Hb Ha. unfold text_splitter.ceil_div.
  rewrite Z.div_small by lia. reflexivity.
Qed.

Lemma split_text_count (text : string) :
  length (text_splitter.split_text 1000 200 text) =
    if decide (String.length text <= 200)
    then (if decide (String.length text = 0) then 0 else 1)
    else (String.length text - 200 + 799) / 800.
Proof.
  unfold text_splitter.split_text, text_splitter.split_chars.
  rewrite length_map, (windows_count 1000 200) by lia.
  rewrite length_list_ascii_of_string.
  repeat destruct (decide _); try reflexivity.
  change (1000 - 200) with 800. f_equal. lia.
Qed.

(** C7 (spec-modelled).  Chunking a segment with a sliding window of 1000
    characters and an overlap of 200: every chunk has between 1 and 1000
    characters; a chunk and its successor share 200 characters (the last
    200 of the first are the first 200 of the second); the first chunk
    followed by the later chunks without their first 200 characters is the
    text; and the number of chunks is [ceil((L - 200) / 800)] when the
    length [L] exceeds 200, one for a shorter non-empty text, none for the
    empty text, so never more than one away from the formula. *)
Theorem chunking_sliding_window (text : string) :
  let chunks :=
    text_splitter.split_text vector_store.chunk_size vector_store.chunk_overlap text in
  let L := Z.of_nat (String.length text) in
  Forall (fun c => 0 < String.length c <= 1000) chunks /\
  (forall i c1 c2,
     chunks !! i = Some c1 -> chunks !! S i = Some c2 ->
     String.substring (String.length c1 - 200) 200 c1 = String.substring 0 200 c2 /\
     200 < String.length c2) /\
  text_splitter.merge_text 200 chunks = text /\
  Z.of_nat (length chunks) =
    (if decide (L <= 200)%Z
     then (if decide (L = 0)%Z then 0%Z else 1%Z)
     else text_splitter.ceil_div (L - 200) (1000 - 200)) /\
  (Z.abs (Z.of_nat (length chunks) - text_splitter.ceil_div (L - 200) (1000 - 200)) <= 1)%Z.
Proof.
  intros chunks L.
  unfold vector_store.chunk_size, vector_store.chunk_overlap in chunks.
  assert (Hcount :
    Z.of_nat (length chunks) =
      (if decide (L <= 200)%Z
       then (if decide (L = 0)%Z then 0%Z else 1%Z)
       else text_splitter.ceil_div (L - 200) (1000 - 200))).
  { subst chunks L. rewrite split_text_count.
    destruct (decide (String.length text <= 200)).
    - destruct (decide (Z.of_nat (String.length text) <= 200)%Z); [|lia].
      destruct (decide (String.length text = 0)),
               (decide (Z.of_nat (String.length text) = 0)%Z); (reflexivity || lia).
    - destruct (decide (Z.of_nat (String.length text) <= 200)%Z); [lia|].
      replace (Z.of_nat (String.length text) - 200)%Z
        with (Z.of_nat (String.length text - 200)) by lia.
      change (1000 - 200)%Z with (Z.of_nat 800).
      rewrite ceil_div_nat by lia. do 2 f_equal. lia. }
  subst chunks. unfold text_splitter.split_text, text_splitter.split_chars in *.
  set (l := list_ascii_of_string text) in *.
  repeat split.
  - rewrite Forall_map.
    eapply Forall_impl; [apply (windows_bounds 1000 200); lia|].
    intros c. rewrite length_string_of_list_ascii. done.
  - rewrite map_as_fmap, !list_lookup_fmap in *.
    destruct (_ !! i) as [a1|] eqn:E1; [|discriminate].
    destruct (_ !! S i) as [a2|] eqn:E2; [|discriminate].
    simplify_eq/=.
    destruct (windows_overlap 1000 200 ltac:(lia) _ l i a1 a2 (Nat.le_refl _) E1 E2)
      as [Hov _].
    rewrite !substring_take_drop, length_string_of_list_ascii, drop_0.
    rewrite <- Hov. f_equal. apply take_ge. rewrite length_drop. lia.
  - rewrite map_as_fmap, !list_lookup_fmap in *.
    destruct (_ !! i) as [a1|] eqn:E1; [|discriminate].
    destruct (_ !! S i) as [a2|] eqn:E2; [|discriminate].
    simplify_eq/=.
    destruct (windows_overlap 1000 200 ltac:(lia) _ l i a1 a2 (Nat.le_refl _) E1 E2)
      as [_ Hlen].
    by rewrite length_string_of_list_ascii.
  - unfold text_splitter.merge_text. rewrite map_map.
    rewrite (map_ext _ id) by (intros a; apply list_ascii_of_string_of_list_ascii).
    rewrite map_id, (windows_merge 1000 200) by lia.
    apply string_of_list_ascii_of_string.
  - exact Hcount.
  - rewrite Hcount. destruct (decide (L <= 200)%Z); [|lia].
    rewrite ceil_div_nonpos by lia.
    destruct (decide (L = 0)%Z); lia.
Qed.

(** ** What a computation leaves alone, and how it may end *)

Section Combinators.
Context {A B : Type}.

Lemma keeps_ret (a : A) : keeps_session (ret a).
Proof. intros w. reflexivity. Qed.

Lemma keeps_raise (e : Exn) : keeps_session (raise (A:=A) e).
Proof. intros w. reflexivity. Qed.

Lemma keeps_bind (m : M A) (k : A -> M B) :
  keeps_session m -> (forall a, keeps_session (k a)) -> keeps_session (bind m k).
Proof.
  intros Hm Hk w. unfold bind. specialize (Hm w).
  destruct (m w) as [[a|e|] w']; simpl in *; [|done|done].
  by rewrite Hk.
Qed.

Lemma keeps_try_except (body : M A) (handler : Exn -> M A) :
  keeps_session body -> (forall e, keeps_session (handler e)) ->
  keeps_session (try_except body handler).
Proof.
  intros Hm Hk w. unfold try_except. specialize (Hm w).
  destruct (body w) as [[a|e|] w']; simpl in *; [done| |done].
  by rewrite Hk.
Qed.

Lemma keeps_try_finally (body : M A) (cleanup : M unit) :
  keeps_session body -> keeps_session cleanup ->
  keeps_session (try_finally body cleanup).
Proof.
  intros Hm Hc w. unfold try_finally. specialize (Hm w).
  destruct (body w) as [r w']. specialize (Hc w').
  destruct (cleanup w') as [[[]|e|] w'']; simpl in *; congruence.
Qed.

Lemma keeps_cache_data inj proj name key (body : M A) :
  keeps_session body -> keeps_session (st_cache_data inj proj name key body).
Proof.
  intros Hm w. unfold st_cache_data. specialize (Hm w).
  destruct (_ ≫= proj); [done|].
  by destruct (body w) as [[a|e|] w'].
Qed.

Lemma keeps_cache_resource inj proj name key (body : M A) :
  keeps_session body -> keeps_session (st_cache_resource inj proj name key body).
Proof.
  intros Hm w. unfold st_cache_resource. specialize (Hm w).
  destruct (_ ≫= proj); [done|].
  by destruct (body w) as [[a|e|] w'].
Qed.

Lemma keeps_lift (r : Exn + A) : keeps_session (lift r).
Proof. by destruct r. Qed.

Lemma keeps_of_ext (r : ExtResult A) : keeps_session (of_ext r).
Proof. by destruct r. Qed.

Lemma no_rerun_ret (a : A) : no_rerun (ret a).
Proof. intros w. done. Qed.

Lemma no_rerun_raise (e : Exn) : no_rerun (raise (A:=A) e).
Proof. intros w. done. Qed.

Lemma no_rerun_bind (m : M A) (k : A -> M B) :
  no_rerun m -> (forall a, no_rerun (k a)) -> no_rerun (bind m k).
Proof.
  intros Hm Hk w. unfold bind. specialize (Hm w).
  destruct (m w) as [[a|e|] w']; simpl in *; [apply Hk|done|done].
Qed.

Lemma no_rerun_lift (r : Exn + A) : no_rerun (lift r).
Proof. by destruct r. Qed.

Lemma no_rerun_of_ext (r : ExtResult A) : no_rerun (of_ext r).
Proof. by destruct r. Qed.

Lemma no_rerun_try_except (body : M A) (handler : Exn -> M A) :
  no_rerun body -> (forall e, no_rerun (handler e)) ->
  no_rerun (try_except body handler).
Proof.
  intros Hm Hk w. unfold try_except. specialize (Hm w).
  destruct (body w) as [[a|e|] w']; simpl in *; [done|apply Hk|done].
Qed.

Lemma no_rerun_try_finally (body : M A) (cleanup : M unit) :
  no_rerun body -> no_rerun cleanup -> no_rerun (try_finally body cleanup).
Proof.
  intros Hm Hc w. unfold try_finally. specialize (Hm w).
  destruct (body w) as [r w']. specialize (Hc w').
  by destruct (cleanup w') as [[[]|e|] w''].
Qed.

Lemma no_rerun_cache_data inj proj name key (body : M A) :
  no_rerun body -> no_rerun (st_cache_data inj proj name key body).
Proof.
  intros Hm w. unfold st_cache_data. specialize (Hm w).
  destruct (_ ≫= proj); [done|].
  by destruct (body w) as [[a|e|] w'].
Qed.

Lemma no_rerun_cache_resource inj proj name key (body : M A) :
  no_rerun body -> no_rerun (st_cache_resource inj proj name key body).
Proof.
  intros Hm w. unfold st_cache_resource. specialize (Hm w).
  destruct (_ ≫= proj); [done|].
  by destruct (body w) as [[a|e|] w'].
Qed.

Lemma returns_ret (a : A) : returns (ret a).
Proof. intros w. by exists a. Qed.

Lemma returns_bind (m : M A) (k : A -> M B) :
  returns m -> (forall a, returns (k a)) -> returns (bind m k).
Proof.
  intros Hm Hk w. unfold bind. destruct (Hm w) as [a Ha].
  destruct (m w) as [r w']; simpl in *; subst r. apply Hk.
Qed.

(** A handler that returns makes a [try ... except Exception] return. *)
Lemma returns_try_except (body : M A) (handler : Exn -> M A) :
  no_rerun body -> (forall e, returns (handler e)) ->
  returns (try_except body handler).
Proof.
  intros Hm Hk w. unfold try_except. specialize (Hm w).
  destruct (body w) as [[a|e|] w']; simpl in *; [by exists a|apply Hk|done].
Qed.

Lemma returns_try_finally (body : M A) (cleanup : M unit) :
  returns body -> returns cleanup -> returns (try_finally body cleanup).
Proof.
  intros Hm Hc w. unfold try_finally. destruct (Hm w) as [a Ha].
  destruct (body w) as [r w']; simpl in *; subst r.
  destruct (Hc w') as [u Hu].
  destruct (cleanup w') as [r w'']; simpl in *; subst r. by exists a.
Qed.

Lemma returns_cache_data inj proj name key (body : M A) :
  returns body -> returns (st_cache_data inj proj name key body).
Proof.
  intros Hm w. unfold st_cache_data.
  destruct (_ ≫= proj) as [v|]; [by exists v|].
  destruct (Hm w) as [a Ha].
  destruct (body w) as [r w']; simpl in *; subst r. by exists a.
Qed.

End Combinators.

Lemma keeps_of_error (e : option string) : keeps_session (of_error e).
Proof. by destruct e. Qed.

Lemma keeps_record_event (e : Event) : keeps_session (record_event e).
Proof. intros w. reflexivity. Qed.

Lemma keeps_show (x : Widget) : keeps_session (show x).
Proof. intros w. reflexivity. Qed.

Lemma keeps_os_path_exists (path : string) : keeps_session (os_path_exists path).
Proof. intros w. reflexivity. Qed.

Lemma keeps_os_remove (path : string) : keeps_session (os_remove path).
Proof. intros w. unfold os_remove. by destruct (entry w path) as [[]|]. Qed.

Lemma keeps_write_file (path content : string) :
  keeps_session (write_file path content).
Proof. intros w. reflexivity. Qed.

Lemma keeps_read_file (path : string) : keeps_session (read_file path).
Proof. intros w. unfold read_file. by destruct (entry w path) as [[]|]. Qed.

Lemma keeps_cache_data_clear : keeps_session st_cache_data_clear.
Proof. intros w. reflexivity. Qed.

Lemma keeps_cache_resource_clear : keeps_session st_cache_resource_clear.
Proof. intros w. reflexivity. Qed.

Lemma no_rerun_of_error (e : option string) : no_rerun (of_error e).
Proof. by destruct e. Qed.

Lemma no_rerun_record_event (e : Event) : no_rerun (record_event e).
Proof. intros w. done. Qed.

Lemma no_rerun_os_path_exists (path : string) : no_rerun (os_path_exists path).
Proof. intros w. done. Qed.

Lemma no_rerun_os_remove (path : string) : no_rerun (os_remove path).
Proof. intros w. unfold os_remove. by destruct (entry w path) as [[]|]. Qed.

Lemma no_rerun_write_file (path content : string) :
  no_rerun (write_file path content).
Proof. intros w. done. Qed.

Lemma no_rerun_read_file (path : string) : no_rerun (read_file path).
Proof. intros w. unfold read_file. by destruct (entry w path) as [[]|]. Qed.

Lemma returns_os_path_exists (path : string) : returns (os_path_exists path).
Proof. intros w. by eexists. Qed.

Create HintDb session discriminated.
#[local] Hint Resolve keeps_ret keeps_raise keeps_lift keeps_of_ext keeps_of_error
  keeps_record_event keeps_show keeps_os_path_exists keeps_os_remove
  keeps_write_file keeps_read_file keeps_cache_data_clear
  keeps_cache_resource_clear : session.

Create HintDb outcome discriminated.
#[local] Hint Resolve no_rerun_ret no_rerun_raise no_rerun_lift no_rerun_of_ext
  no_rerun_of_error no_rerun_record_event no_rerun_os_path_exists
  no_rerun_os_remove no_rerun_write_file no_rerun_read_file
  returns_ret returns_os_path_exists : outcome.

(** Goals about a composite computation are taken apart along its
    structure; a [match] or [if] is settled by cases on what it examines. *)
Ltac structural :=
  repeat first
    [ solve [auto with session outcome]
    | apply keeps_bind; [|intro] | apply keeps_try_except; [|intro]
    | apply keeps_try_finally | apply keeps_cache_data | apply keeps_cache_resource
    | apply no_rerun_bind; [|intro] | apply no_rerun_try_except; [|intro]
    | apply no_rerun_try_finally | apply no_rerun_cache_data
    | apply no_rerun_cache_resource
    | apply returns_bind; [|intro] | apply returns_try_finally
    | apply returns_cache_data
    | match goal with
      | |- keeps_session (match ?x with _ => _ end) => destruct x
      | |- no_rerun (match ?x with _ => _ end) => destruct x
      | |- returns (match ?x with _ => _ end) => destruct x
      end ].

(** ** The helper modules leave the session alone *)

Section Helpers.
Variable ext : Services.

Lemma remove_if_exists_keeps path :
  keeps_session (video_processor.remove_if_exists path).
Proof. unfold video_processor.remove_if_exists. structural. Qed.

Lemma write_opt_keeps path content :
  keeps_session (video_processor.write_opt path content).
Proof. unfold video_processor.write_opt. structural. Qed.

Lemma write_opt_no_rerun path content :
  no_rerun (video_processor.write_opt path content).
Proof. unfold video_processor.write_opt. structural. Qed.

Lemma transcribe_audio_keeps url :
  keeps_session (video_processor._transcribe_audio_with_whisper ext url).
Proof.
  unfold video_processor._transcribe_audio_with_whisper,
    video_processor.ydl_download_to, video_processor.whisper_model_transcribe.
  pose proof remove_if_exists_keeps. pose proof write_opt_keeps.
  structural.
Qed.

Lemma get_video_transcript_keeps url :
  keeps_session (video_processor.get_video_transcript ext url).
Proof.
  unfold video_processor.get_video_transcript, video_processor.ytt_api_fetch.
  pose proof transcribe_audio_keeps. structural.
Qed.

Lemma load_from_webpage_keeps url :
  keeps_session (data_loader.load_from_webpage ext url).
Proof. unfold data_loader.load_from_webpage. structural. Qed.

Lemma load_from_pdf_keeps path :
  keeps_session (data_loader.load_from_pdf ext path).
Proof. unfold data_loader.load_from_pdf. structural. Qed.

Lemma load_from_docx_keeps path :
  keeps_session (data_loader.load_from_docx ext path).
Proof. unfold data_loader.load_from_docx. structural. Qed.

Lemma create_vector_store_keeps documents :
  keeps_session (vector_store.create_vector_store ext documents).
Proof. unfold vector_store.create_vector_store. structural. Qed.

Lemma create_rag_chain_keeps retriever :
  keeps_session (rag_pipeline.create_rag_chain ext retriever).
Proof. unfold rag_pipeline.create_rag_chain. structural. Qed.

Lemma generate_suggested_questions_keeps docs :
  keeps_session (app.generate_suggested_questions ext docs).
Proof. unfold app.generate_suggested_questions. structural. Qed.

(** Suggestion failures are swallowed. *)
Lemma generate_suggested_questions_returns docs :
  returns (app.generate_suggested_questions ext docs).
Proof.
  unfold app.generate_suggested_questions. apply returns_cache_data.
  destruct (negb _); [apply returns_ret|].
  apply returns_try_except; [|intro; apply returns_ret]. structural.
Qed.

Lemma load_and_cache_document_keeps content name type :
  keeps_session (app.load_and_cache_document ext content name type).
Proof.
  unfold app.load_and_cache_document.
  pose proof remove_if_exists_keeps. pose proof load_from_pdf_keeps.
  pose proof load_from_docx_keeps. structural.
Qed.

Lemma load_uploaded_keeps uploaded all_docs :
  keeps_session (app.load_uploaded ext uploaded all_docs).
Proof.
  revert all_docs. induction uploaded as [|f rest IH]; intros all_docs; simpl.
  - apply keeps_ret.
  - apply keeps_bind; [apply load_and_cache_document_keeps | intro; apply IH].
Qed.

End Helpers.

(** ** Parsing the video id *)

Lemma split_from_no_separator (sep cur s : string) :
  Py.contains sep s = false -> exists piece, Py.split_from sep 0 cur s = [piece].
Proof.
  revert cur. induction s as [|c s IH]; intros cur Hno; [by eexists|].
  cbn [Py.contains] in Hno. apply orb_false_iff in Hno as [Hp Hrest].
  cbn [Py.split_from]. rewrite Hp. apply IH, Hrest.
Qed.

(** A URL without ["v="] has no second piece: [split("v=")[1]] raises
    [IndexError]. *)
Lemma video_id_of_no_marker (url : string) :
  Py.contains "v=" url = false ->
  video_processor.video_id_of url = inl IndexError.
Proof.
  intros Hno. unfold video_processor.video_id_of, Py.split.
  destruct (split_from_no_separator "v=" "" url Hno) as [piece ->].
  reflexivity.
Qed.

Section Transcript.
Variable ext : Services.

Lemma get_video_transcript_unparsed url w :
  cache_data w !! ("get_video_transcript", [ArgStr url]) = None ->
  video_processor.video_id_of url = inl IndexError ->
  (video_processor.get_video_transcript ext url w).1 = Return None.
Proof.
  intros Hmiss Hid. unfold video_processor.get_video_transcript.
  rewrite st_cache_data_miss by done.
  unfold try_except, bind. rewrite Hid. reflexivity.
Qed.

Lemma get_video_transcript_fetch_failed url id msg w :
  cache_data w !! ("get_video_transcript", [ArgStr url]) = None ->
  video_processor.video_id_of url = inr id ->
  ytt_fetch ext id = FetchFailed msg ->
  (video_processor.get_video_transcript ext url w).1 = Return None.
Proof.
  intros Hmiss Hid Hfetch. unfold video_processor.get_video_transcript.
  rewrite st_cache_data_miss by done.
  unfold try_except, bind, video_processor.ytt_api_fetch, bind.
  rewrite Hid. cbn. rewrite Hfetch. reflexivity.
Qed.

End Transcript.

Section Fallback.
Variable ext : Services.







End Fallback.

Section TranscriptRun.
Variable ext : Services.


End TranscriptRun.


(** C10 fails on the cleanup of the audio fallback.  The [finally] of
    [_transcribe_audio_with_whisper] calls [os.remove] outside every
    handler, and [get_video_transcript] calls the fallback from inside its
    [except NoTranscriptFound] clause, which the [except Exception] beside
    it does not cover.  For a video without transcript whose download
    fails, in a working directory where [temp_audio.mp3] is a directory,
    the [OSError] of the removal reaches the caller and ends the run of
    the script; in an empty working directory the same call returns
    [None]. *)
Lemma cleanup_failure_reaches_the_caller :
  let out :=
    video_processor.get_video_transcript scenario.services
      scenario.broken_video scenario.blocked_world in
  video_processor.video_id_of scenario.broken_video = inr "silent-broken" /\
  ytt_fetch scenario.services "silent-broken" = FetchNoTranscript /\
  dl_error (ydl_download scenario.services scenario.broken_video)
    = Some "ffmpeg not found" /\
  entry scenario.blocked_world "temp_audio.mp3" = Some Directory /\
  out.1 = Raise (OSError "temp_audio.mp3") /\
  (app.interact scenario.services (app.ProcessURL scenario.broken_video)
     scenario.blocked_world).1 = app.Failed (OSError "temp_audio.mp3") /\
  (video_processor.get_video_transcript scenario.services
     scenario.broken_video initial_world).1 = Return None.
Proof. vm_compute. repeat split. Qed.

(** ** Building the index *)

(** C5.  When the body of [create_vector_store] runs, it raises one of its
    two [ValueError]s exactly when the document list is empty or the
    splitter returns no chunk; in that case the world is left as it was:
    no embedding model is loaded, no index is built, nothing is cached. *)
Theorem create_vector_store_indexing_error
  (ext : Services) (documents : list Document) (w : World) :
  cache_resource w !! ("create_vector_store", [ArgDocs documents]) = None ->
  let out := vector_store.create_vector_store ext documents w in
  let chunks :=
    split_documents ext vector_store.chunk_size vector_store.chunk_overlap documents in
  ((exists msg, out.1 = Raise (ValueError msg)) <-> (documents = [] \/ chunks = [])) /\
  ((exists msg, out.1 = Raise (ValueError msg)) ->
   out.2 = w /\ forall index, out.1 <> Return index).
Proof.
  intros Hmiss out chunks. subst out chunks.
  unfold vector_store.create_vector_store.
  rewrite st_cache_resource_miss by done.
  destruct documents as [|d documents]; cbn.
  { split; [split; eauto|]. intros _. split; [done|]. by intros. }
  destruct (split_documents ext _ _ (d :: documents)) as [|c chunks] eqn:Hsplit; cbn.
  { split; [split; eauto|]. intros _. split; [done|]. by intros. }
  unfold bind, record_event, of_error, ret, raise. cbn.
  destruct (embedding_init_error ext) as [m1|];
    [|destruct (chroma_insert_error ext (c :: chunks)) as [m2|]]; cbn in *;
    (split; [split; [intros [msg H]; discriminate | intros [?|?]; discriminate]
            | intros [msg H]; discriminate]).
Qed.

(** ** Ingesting a source *)

Lemma bind_raise_inv {A B} (m : M A) (k : A -> M B) w e w' :
  bind m k w = (Raise e, w') ->
  m w = (Raise e, w') \/
  exists a w1, m w = (Return a, w1) /\ k a w1 = (Raise e, w').
Proof.
  unfold bind. destruct (m w) as [[a|e1|] w1]; intros H; cbn in H.
  - right. by exists a, w1.
  - left. by injection H as -> ->.
  - discriminate.
Qed.

Lemma bind_return_inv {A B} (m : M A) (k : A -> M B) w b w' :
  bind m k w = (Return b, w') ->
  exists a w1, m w = (Return a, w1) /\ k a w1 = (Return b, w').
Proof.
  unfold bind. destruct (m w) as [[a|e1|] w1]; intros H; cbn in H; [by exists a, w1|done|done].
Qed.

Lemma returns_not_raise {A} (m : M A) w e w' :
  returns m -> m w <> (Raise e, w').
Proof. intros Hm H. destruct (Hm w) as [a Ha]. rewrite H in Ha. discriminate. Qed.

Lemma returns_modify_session f : returns (modify_session f).
Proof. intros w. by eexists. Qed.

Lemma returns_show x : returns (show x).
Proof. intros w. by eexists. Qed.

Lemma keeps_final {A} (m : M A) w r w' :
  keeps_session m -> m w = (r, w') -> session_state w' = session_state w.
Proof. intros Hm H. specialize (Hm w). by rewrite H in Hm. Qed.

Section Ingest.
Variable ext : Services.

(** Once the index and the chain are built, nothing in
    [process_new_source] can fail. *)
Lemma session_update_returns chain docs name :
  returns
    (modify_session (set_rag_chain (Some chain)) ;;
     modify_session (set_chat_history []) ;;
     modify_session (set_source_name name) ;;
     questions <- app.generate_suggested_questions ext docs ;;
     modify_session (set_suggested_questions questions) ;;
     show (Toast ("Ready to chat with " +:+ name +:+ "!"))).
Proof.
  pose proof (generate_suggested_questions_returns ext).
  pose proof returns_modify_session. pose proof returns_show.
  structural.
Qed.

Lemma process_new_source_raise docs name w e w' :
  app.process_new_source ext docs name w = (Raise e, w') ->
  session_state w' = session_state w.
Proof.
  unfold app.process_new_source. intros H.
  apply bind_raise_inv in H as [H|(? & w1 & H1 & H)]; [discriminate|].
  apply bind_raise_inv in H as [H|(? & w2 & H2 & H)]; [discriminate|].
  injection H1 as _ <-. injection H2 as _ <-.
  apply bind_raise_inv in H as [H|(vs & w3 & H3 & H)].
  { by apply (keeps_final _ _ _ _ (create_vector_store_keeps ext docs)) in H. }
  apply (keeps_final _ _ _ _ (create_vector_store_keeps ext docs)) in H3.
  cbn in H3.
  apply bind_raise_inv in H as [H|(chain & w4 & H4 & H)].
  { apply (keeps_final _ _ _ _ (create_rag_chain_keeps ext _)) in H. congruence. }
  by apply returns_not_raise in H; [|apply session_update_returns].
Qed.

Lemma process_url_raise url w e w' :
  app.process_url ext url w = (Raise e, w') ->
  session_state w' = session_state w.
Proof.
  unfold app.process_url. destruct (truthy_str url); [|discriminate].
  intros H. apply bind_raise_inv in H as [H|(docs & w1 & H1 & H)].
  - eapply keeps_final; [|exact H].
    pose proof (get_video_transcript_keeps ext).
    pose proof (load_from_webpage_keeps ext). structural.
  - assert (session_state w1 = session_state w) as <-.
    { eapply keeps_final; [|exact H1].
      pose proof (get_video_transcript_keeps ext).
      pose proof (load_from_webpage_keeps ext). structural. }
    destruct (truthy_list docs); [|discriminate].
    apply bind_raise_inv in H as [H|(? & w2 & _ & H)]; [|discriminate].
    by eapply process_new_source_raise.
Qed.

Lemma process_documents_raise files w e w' :
  app.process_documents ext files w = (Raise e, w') ->
  session_state w' = session_state w.
Proof.
  unfold app.process_documents. destruct (truthy_list files); [|discriminate].
  intros H. apply bind_raise_inv in H as [H|(docs & w1 & H1 & H)].
  - eapply keeps_final; [apply load_uploaded_keeps | exact H].
  - apply (keeps_final _ _ _ _ (load_uploaded_keeps ext _ _)) in H1. rewrite <- H1.
    destruct (truthy_list docs); [|discriminate].
    apply bind_raise_inv in H as [H|(? & w2 & _ & H)]; [|discriminate].
    by eapply process_new_source_raise.
Qed.

End Ingest.

(** C2.  An ingest that fails leaves [st.session_state] as it was: whether
    [process_new_source] raises while building the index or the chain (on
    an empty document list, on documents that yield no chunk, on a
    failure of the embedding model, of the vector database or of the
    language model), or a sidebar handler raises while extracting, the
    chain, the chat history, the source name and the suggested questions
    are those of before the call. *)
Theorem ingest_failure_keeps_session (ext : Services) (w w' : World) (e : Exn) :
  (forall docs name,
     app.process_new_source ext docs name w = (Raise e, w') ->
     session_state w' = session_state w) /\
  (forall a,
     app.sidebar ext a w = (Raise e, w') ->
     session_state w' = session_state w).
Proof.
  split.
  - intros docs name. apply process_new_source_raise.
  - intros [|url|files|i|prompt]; cbn; try discriminate.
    + apply process_url_raise.
    + apply process_documents_raise.
Qed.

Section Reset.
Variable ext : Services.

Lemma create_vector_store_fresh docs w vs w1 :
  cache_resource w = ∅ ->
  vector_store.create_vector_store ext docs w = (Return vs, w1) ->
  vs = {| indexed_chunks :=
            split_documents ext vector_store.chunk_size vector_store.chunk_overlap docs |} /\
  cache_data w1 = cache_data w /\
  cache_resource w1 = <[("create_vector_store", [ArgDocs docs]) := CvStore vs]> ∅.
Proof.
  intros Hempty. unfold vector_store.create_vector_store.
  rewrite st_cache_resource_miss by (by rewrite Hempty).
  destruct (negb (truthy_list docs)); [discriminate|].
  destruct (negb (truthy_list _)); [discriminate|].
  unfold bind, record_event, of_error, ret, raise. cbn.
  destruct (embedding_init_error ext); [discriminate|].
  destruct (chroma_insert_error ext _); [discriminate|].
  intros [= <- <-]. cbn. by rewrite Hempty.
Qed.

Lemma create_rag_chain_fresh retriever w chain w1 :
  cache_resource w !! ("create_rag_chain", []) = None ->
  rag_pipeline.create_rag_chain ext retriever w = (Return chain, w1) ->
  chain = {| chain_retriever := retriever |} /\ cache_data w1 = cache_data w.
Proof.
  intros Hmiss. unfold rag_pipeline.create_rag_chain.
  rewrite st_cache_resource_miss by done.
  unfold try_except, bind, record_event, of_error, ret, raise. cbn.
  destruct (llm_init_error ext); [discriminate|].
  by intros [= <- <-].
Qed.

(** With an empty data cache the suggestions are computed anew, from the
    documents passed. *)
Lemma generate_suggested_questions_fresh docs w :
  cache_data w !! ("generate_suggested_questions", []) = None ->
  (app.generate_suggested_questions ext docs w).1 =
    Return (app.fresh_suggestions ext docs) /\
  session_state (app.generate_suggested_questions ext docs w).2 = session_state w.
Proof.
  intros Hmiss. split; [|apply generate_suggested_questions_keeps].
  unfold app.generate_suggested_questions, app.fresh_suggestions.
  rewrite st_cache_data_miss by done.
  destruct (negb (truthy_list docs)); [reflexivity|].
  unfold try_except, bind, record_event, of_error, of_ext, ret, raise. cbn.
  destruct (llm_init_error ext); [reflexivity|].
  by destruct (llm_invoke ext _).
Qed.

End Reset.

(** C4.  After a successful [process_new_source docs name] the chat history
    is empty, the source name is [name], the suggested questions are the
    ones computed from [docs] (the caches having been cleared, no earlier
    result is served), and the chain retrieves from an index over the
    chunks of [docs]. *)
Theorem ingest_resets_session
  (ext : Services) (docs : list Document) (name : string) (w w' : World) :
  app.process_new_source ext docs name w = (Return tt, w') ->
  chat_history (session_state w') = [] /\
  source_name (session_state w') = name /\
  suggested_questions (session_state w') = app.fresh_suggestions ext docs /\
  rag_chain (session_state w') =
    Some {| chain_retriever :=
              as_retriever
                {| indexed_chunks :=
                     split_documents ext vector_store.chunk_size
                       vector_store.chunk_overlap docs |} |}.
Proof.
  unfold app.process_new_source. intros H.
  apply bind_return_inv in H as (? & w1 & [= _ <-] & H).
  apply bind_return_inv in H as (? & w2 & [= _ <-] & H).
  apply bind_return_inv in H as (vs & w3 & Hvs & H).
  apply create_vector_store_fresh in Hvs as (-> & Hdata3 & Hres3); [|done].
  apply bind_return_inv in H as (chain & w4 & Hchain & H).
  apply create_rag_chain_fresh in Hchain as (-> & Hdata4);
    [|by rewrite Hres3, lookup_insert_ne].
  apply bind_return_inv in H as (? & w5 & [= _ <-] & H).
  apply bind_return_inv in H as (? & w6 & [= _ <-] & H).
  apply bind_return_inv in H as (? & w7 & [= _ <-] & H).
  apply bind_return_inv in H as (questions & w8 & Hq & H).
  apply bind_return_inv in H as (? & w9 & [= _ <-] & H).
  injection H as <-.
  destruct (generate_suggested_questions_fresh ext docs
              (with_session (set_source_name name)
                 (with_session (set_chat_history [])
                    (with_session (set_rag_chain
                       (Some {| chain_retriever := as_retriever
                          {| indexed_chunks :=
                               split_documents ext vector_store.chunk_size
                                 vector_store.chunk_overlap docs |} |})) w4))))
    as [Hfresh Hkeep].
  { cbn. by rewrite Hdata4, Hdata3. }
  rewrite Hq in Hfresh, Hkeep. cbn in Hfresh, Hkeep. injection Hfresh as ->.
  cbn. rewrite Hkeep. done.
Qed.

(** ** Asking a question *)

Section Chat.
Variable ext : Services.

(** A run with the widgets at rest, a chain in place and no question
    pending redraws the page and changes nothing in the session. *)
Lemma script_idle w chain :
  rag_chain (session_state w) = Some chain ->
  app.settled w ->
  exists w', app.script ext app.Idle w = (Return tt, w') /\
             session_state w' = session_state w.
Proof.
  intros Hchain Hsettled. unfold app.settled in Hsettled.
  destruct w as [[rc h sq sn] cd cr fs ev sc ds]. cbn in *. subst rc.
  unfold app.script, app.sidebar, app.main_chat_interface, app.render_history,
    app.response_streaming, app.suggested_questions_block, app.chat_input_block,
    bind, get_session, show, ret. cbn.
  destruct (last h) as [[p|c ctx]|] eqn:Hlast; [by destruct (Hsettled p)| |];
    cbn; destruct sq; cbn; (eexists; split; [reflexivity|]; reflexivity).
Qed.

(** The run that receives the question appends it and asks for a rerun. *)
Lemma script_chat_input w chain q :
  rag_chain (session_state w) = Some chain ->
  app.settled w ->
  truthy_str q = true ->
  exists w', app.script ext (app.ChatInput q) w = (Rerun, w') /\
             session_state w' =
               set_chat_history
                 (chat_history (session_state w) ++ [HumanMessage q])
                 (session_state w).
Proof.
  intros Hchain Hsettled Hq. unfold app.settled in Hsettled.
  destruct w as [[rc h sq sn] cd cr fs ev sc ds]. cbn in *. subst rc.
  unfold app.script, app.sidebar, app.main_chat_interface, app.render_history,
    app.response_streaming, app.suggested_questions_block, app.chat_input_block,
    app.append_message, bind, get_session, modify_session, st_rerun, show, ret.
  cbn. rewrite Hq.
  destruct (last h) as [[p|c ctx]|] eqn:Hlast; [by destruct (Hsettled p)| |];
    cbn; destruct sq; cbn; (eexists; split; [reflexivity|]; reflexivity).
Qed.

(** The run that finds a question pending streams the answer, appends it
    with the context the stream yielded, drops the suggestions and asks
    for a rerun; if the stream breaks, the run stops there. *)
Lemma script_answer w chain q (a : app.Action) :
  (a = app.Idle \/ exists p, a = app.ChatInput p \/ exists i, a = app.ClickSuggestion i) ->
  rag_chain (session_state w) = Some chain ->
  last (chat_history (session_state w)) = Some (HumanMessage q) ->
  let h := chat_history (session_state w) in
  let stream := chain_stream ext chain q (take (length h - 1) h) in
  let result := app.consume stream.1 "" [] in
  exists w',
    session_state w' =
      (match stream.2 with
       | Some _ => session_state w
       | None =>
           set_suggested_questions []
             (set_chat_history (h ++ [AIMessage result.1 result.2]) (session_state w))
       end) /\
    app.script ext a w =
      (match stream.2 with
       | Some msg => Raise (ExternalError msg)
       | None => Rerun
       end, w').
Proof.
  intros Ha Hchain Hlast h stream result. subst h stream result.
  destruct w as [[rc h sq sn] cd cr fs ev sc ds]. cbn in *. subst rc.
  assert (Hside : app.sidebar ext a = ret tt).
  { destruct Ha as [->|[p [->|[i ->]]]]; reflexivity. }
  unfold app.script. rewrite Hside.
  unfold app.main_chat_interface, app.render_history,
    app.response_streaming, app.append_message, bind, get_session,
    modify_session, record_event, st_rerun, show, of_error, ret, raise.
  cbn. rewrite Hlast. cbn.
  destruct (chain_stream ext chain q (take (length h - 1) h)) as [chunks [msg|]];
    cbn; try destruct (truthy_str (app.consume chunks "" []).1);
    cbn; (eexists; split; [|reflexivity]; reflexivity).
Qed.

End Chat.

Section Ask.
Variable ext : Services.


End Ask.


(** ** Asking before any source was processed *)

(** C9, as the code has it.  Without a chain the script draws the notice
    asking for a data source and nothing else: the chat input is not
    offered, the question is dropped, no exception is raised, and the
    session, the caches, the files and the calls made are untouched. *)
Theorem ask_before_ingest_is_declined (ext : Services) (q : string) (w : World) :
  rag_chain (session_state w) = None ->
  app.ask ext q w =
    (app.Completed,
     with_screen
       (fun _ => [Info "Please process a data source from the sidebar to start a conversation."])
       w).
Proof.
  intros Hnone. destruct w as [[rc h sq sn] cd cr fs ev sc ds]. cbn in Hnone. subst rc.
  reflexivity.
Qed.

Lemma ask_before_ingest_is_declined_witness :
  app.ask scenario.services "What is the capital of France?" initial_world =
    (app.Completed,
     with_screen
       (fun _ => [Info "Please process a data source from the sidebar to start a conversation."])
       initial_world).
Proof.
  apply (ask_before_ingest_is_declined scenario.services
           "What is the capital of France?" initial_world).
  reflexivity.
Defined.

(** C9, as stated, fails: asked in the initial session, the question ends
    in a completed run, not in an error. *)
Lemma ask_before_ingest_counterexample :
  rag_chain (session_state initial_world) = None /\
  (app.ask scenario.services "What is the capital of France?" initial_world).1
    = app.Completed /\
  chat_history
    (session_state
       (app.ask scenario.services "What is the capital of France?" initial_world).2)
    = [].
Proof. repeat split. Qed.

(** ** Citations *)

Lemma sources_expander_shown (content : string) (context : list Document)
  (passages : list string) :
  SourcesExpander passages ∈ app.render_message (AIMessage content context) <->
  Py.startswith content app.context_marker = true /\
  context <> [] /\
  passages = map page_content context.
Proof.
  unfold app.render_message.
  destruct (Py.startswith content app.context_marker); cbn.
  - destruct context as [|d context]; cbn.
    + split; [|by intros (_ & ? & _)].
      intros H. apply list_elem_of_singleton in H. discriminate.
    + split.
      * intros H. apply elem_of_cons in H as [H|H]; [discriminate|].
        apply list_elem_of_singleton in H. injection H as ->. done.
      * intros (_ & _ & ->). apply elem_of_cons. right. apply list_elem_of_singleton.
        reflexivity.
  - split; [|by intros (? & _)].
    intros H. apply list_elem_of_singleton in H. discriminate.
Qed.

(** ** The scenarios *)

(** A pair is known from its first component and itself. *)
Lemma pair_of_parts {A B} (p : A * B) (a : A) : p.1 = a -> p = (a, p.2).
Proof. intros <-. by destruct p. Defined.



(** C1, as stated, fails: a question answered from general knowledge gets
    an answer turn that does not begin with the marker and yet carries
    the retrieved passage. *)
Lemma citation_coupling_counterexample :
  let out :=
    app.ask scenario.services "How many people live in Paris?"
      scenario.indexed_world in
  out.1 = app.Completed /\
  last (chat_history (session_state out.2)) =
    Some (AIMessage "Based on general knowledge: about 2 million."
            [scenario.doc "Paris is the capital of France."]) /\
  Py.startswith "Based on general knowledge: about 2 million."
    app.context_marker = false.
Proof. vm_compute. repeat split. Qed.

Lemma ingest_failure_keeps_session_witness :
  let w := scenario.chatted_world in
  let out := app.sidebar scenario.services
               (app.ProcessURL "https://example.org/empty") w in
  out.1 = Raise (ValueError "Documents could not be split into chunks.") /\
  session_state out.2 = session_state w.
Proof.
  assert (Hraise :
    (app.sidebar scenario.services (app.ProcessURL "https://example.org/empty")
       scenario.chatted_world).1
    = Raise (ValueError "Documents could not be split into chunks."))
    by (vm_compute; reflexivity).
  split; [exact Hraise|].
  exact (proj2 (ingest_failure_keeps_session scenario.services
                  scenario.chatted_world
                  (app.sidebar scenario.services
                     (app.ProcessURL "https://example.org/empty")
                     scenario.chatted_world).2
                  (ValueError "Documents could not be split into chunks."))
           (app.ProcessURL "https://example.org/empty")
           (pair_of_parts _ _ Hraise)).
Defined.

Lemma ingest_resets_session_witness :
  let w := scenario.chatted_world in
  let docs := [scenario.doc "Berlin is the capital of Germany."] in
  let out := app.process_new_source scenario.services docs "notes.docx" w in
  out.1 = Return tt /\
  chat_history (session_state out.2) = [] /\
  source_name (session_state out.2) = "notes.docx" /\
  suggested_questions (session_state out.2) =
    app.fresh_suggestions scenario.services docs /\
  rag_chain (session_state out.2) =
    Some {| chain_retriever :=
              as_retriever
                {| indexed_chunks :=
                     split_documents scenario.services vector_store.chunk_size
                       vector_store.chunk_overlap docs |} |}.
Proof.
  assert (Hreturn :
    (app.process_new_source scenario.services
       [scenario.doc "Berlin is the capital of Germany."] "notes.docx"
       scenario.chatted_world).1 = Return tt)
    by (vm_compute; reflexivity).
  split; [exact Hreturn|].
  exact (ingest_resets_session scenario.services
           [scenario.doc "Berlin is the capital of Germany."] "notes.docx"
           scenario.chatted_world
           (app.process_new_source scenario.services
              [scenario.doc "Berlin is the capital of Germany."] "notes.docx"
              scenario.chatted_world).2
           (pair_of_parts _ _ Hreturn)).
Defined.

Lemma create_vector_store_indexing_error_witness :
  let out :=
    vector_store.create_vector_store scenario.services [scenario.doc ""]
      initial_world in
  out.1 = Raise (ValueError "Documents could not be split into chunks.") /\
  out.2 = initial_world.
Proof.
  assert (Hmiss :
    cache_resource initial_world
      !! ("create_vector_store", [ArgDocs [scenario.doc ""]]) = None)
    by (vm_compute; reflexivity).
  assert (Hraise :
    (vector_store.create_vector_store scenario.services [scenario.doc ""]
       initial_world).1
    = Raise (ValueError "Documents could not be split into chunks."))
    by (vm_compute; reflexivity).
  split; [exact Hraise|].
  exact (proj1 (proj2 (create_vector_store_indexing_error scenario.services
                         [scenario.doc ""] initial_world Hmiss)
                  (ex_intro _ _ Hraise))).
Defined.


(** ** Temporary files *)

(** C8 fails on the audio fallback.  A video without transcript whose
    download reaches the output template and then fails in the
    post-processor: [get_video_transcript] returns [None], no
    [temp_audio.mp3] is left, and the downloaded [temp_audio.mp4] stays on
    disk, since the cleanup removes the [.mp3] only. *)
Lemma audio_download_is_left_behind :
  let out :=
    video_processor.get_video_transcript scenario.services
      scenario.broken_video initial_world in
  dl_error (ydl_download scenario.services scenario.broken_video)
    = Some "ffmpeg not found" /\
  out.1 = Return None /\
  files initial_world !! "temp_audio.mp4" = None /\
  files out.2 !! "temp_audio.mp4" = Some "m4a audio" /\
  files out.2 !! "temp_audio.mp3" = None.
Proof. vm_compute. repeat split. Qed.

(** * Further properties of the code *)

(** ** Temporary files of the extraction *)

Section TempFiles.
Variable ext : Services.

Lemma load_from_pdf_files path w :
  files (data_loader.load_from_pdf ext path w).2 = files w.
Proof.
  unfold data_loader.load_from_pdf, st_cache_data, bind, record_event,
    read_file, of_ext, ret, raise.
  destruct (_ ≫= proj_docs); [done|]. cbn.
  destruct (entry _ path) as [[c|]|]; [|done..].
  by destruct (pypdf_load_and_split ext _).
Qed.

Lemma load_from_docx_files path w :
  files (data_loader.load_from_docx ext path w).2 = files w.
Proof.
  unfold data_loader.load_from_docx, st_cache_data, bind, record_event,
    read_file, of_ext, ret, raise.
  destruct (_ ≫= proj_docs); [done|]. cbn.
  destruct (entry _ path) as [[c|]|]; [|done..].
  by destruct (docx2txt_load ext _).
Qed.


(** A file written before a [try] whose [finally] removes it is gone
    afterwards, however the body ends, if the body leaves the files alone. *)
Lemma written_then_removed {A} (body : M A) (path content : string) w :
  (forall w0, files (body w0).2 = files w0) ->
  files ((write_file path content ;;
          try_finally body (video_processor.remove_if_exists path)) w).2
  = delete path (files w).
Proof.
  intros Hbody. unfold bind at 1, write_file. cbn.
  set (w1 := with_files _ w). unfold try_finally.
  specialize (Hbody w1). destruct (body w1) as [r w2]. cbn in Hbody.
  unfold video_processor.remove_if_exists, bind, os_path_exists, os_remove, ret.
  cbn.
  assert (Hfile : entry w2 path = Some (File content)).
  { unfold entry. subst w1. cbn in Hbody. by rewrite Hbody, lookup_insert_eq. }
  rewrite Hfile. cbn. rewrite Hfile. cbn. rewrite Hbody. subst w1. cbn.
  by rewrite delete_insert_eq.
Qed.

End TempFiles.

(** X1.  When the body of [load_and_cache_document] runs, the temporary
    file it writes is removed again, whether the loader returns or raises,
    and no other file is touched. *)
Theorem load_and_cache_document_removes_temp_file
  (ext : Services) (file_content file_name file_type : string) (w : World) :
  cache_data w !! ("load_and_cache_document",
                   [ArgStr file_content; ArgStr file_name; ArgStr file_type]) = None ->
  files (app.load_and_cache_document ext file_content file_name file_type w).2
  = delete (app.temp_path_of ext file_content file_name) (files w).
Proof.
  intros Hmiss. unfold app.load_and_cache_document.
  rewrite st_cache_data_miss by done.
  pose proof (written_then_removed
    (if String.eqb file_type app.pdf_type
     then data_loader.load_from_pdf ext (app.temp_path_of ext file_content file_name)
     else if String.eqb file_type app.docx_type
     then data_loader.load_from_docx ext (app.temp_path_of ext file_content file_name)
     else ret [])
    (app.temp_path_of ext file_content file_name) file_content w) as H.
  cbv zeta.
  destruct ((write_file _ _ ;; try_finally _ _) w) as [[docs|e|] w'];
    cbn in H |- *; apply H; intros w0;
    repeat destruct (String.eqb _ _);
    auto using load_from_pdf_files, load_from_docx_files.
Qed.

Lemma load_and_cache_document_removes_temp_file_witness :
  let out :=
    app.load_and_cache_document scenario.services "not a pdf" "report.pdf"
      app.pdf_type initial_world in
  out.1 = Raise (ExternalError "not a PDF file") /\
  files out.2 =
    delete (app.temp_path_of scenario.services "not a pdf" "report.pdf")
      (files initial_world).
Proof.
  split; [vm_compute; reflexivity|].
  apply (load_and_cache_document_removes_temp_file scenario.services
           "not a pdf" "report.pdf" app.pdf_type initial_world).
  vm_compute. reflexivity.
Defined.





(** ** Reruns *)

Section Reruns.
Variable ext : Services.

(** A run with the widgets at rest asks for a rerun only after it has
    appended an answer: the next run finds a chain and no pending turn. *)
Lemma script_idle_rerun w w' :
  app.script ext app.Idle w = (Rerun, w') ->
  (exists chain, rag_chain (session_state w') = Some chain) /\ app.settled w'.
Proof.
  destruct w as [[rc h sq sn] cd cr fs ev sc ds].
  unfold app.script, app.sidebar, app.main_chat_interface, app.render_history,
    app.response_streaming, app.suggested_questions_block, app.chat_input_block,
    app.append_message, bind, get_session, modify_session, record_event,
    st_rerun, show, of_error, ret, raise.
  cbn. destruct rc as [chain|]; [|discriminate]. cbn.
  destruct (last h) as [[q|c ctx]|] eqn:Hlast; cbn.
  - destruct (chain_stream ext chain q _) as [chunks [msg|]]; cbn;
      [by destruct (truthy_str (app.consume chunks "" []).1)|].
    intros [= <-]. cbn. split; [by exists chain|].
    intros p. cbn. by rewrite last_snoc.
  - destruct sq; discriminate.
  - destruct sq; discriminate.
Qed.

End Reruns.

(** X4.  No interaction keeps the script rerunning: whatever the action and
    the world, three runs are enough for the script to reach its end or to
    stop on an exception. *)
Theorem interact_needs_no_more_runs (ext : Services) (a : app.Action) (w : World) :
  (app.interact ext a w).1 <> app.OutOfFuel.
Proof.
  unfold app.interact. cbn [app.run].
  destruct (app.script ext a _) as [[[]|e|] w1]; [done|done|].
  destruct (app.script ext app.Idle (with_screen (fun _ => []) w1))
    as [[[]|e|] w2] eqn:Hrun2; [done|done|].
  apply script_idle_rerun in Hrun2 as [[chain Hchain] Hsettled].
  destruct (script_idle ext (with_screen (fun _ => []) w2) chain)
    as (w3 & -> & _); done.
Qed.

(** ** Questions *)

(** X5.  A question waiting for its answer is served before anything
    else in the chat: with a chain in place and a user turn last in the
    history, a run triggered by the chat input, by a suggestion button or
    by nothing streams the answer to the pending question; a prompt typed
    meanwhile is dropped.  If the stream breaks the session is left as it
    was, the question still pending. *)
Theorem pending_question_is_answered_first
  (ext : Services) (a : app.Action) (w : World) (chain : RagChain) (q : string) :
  (forall url, a <> app.ProcessURL url) ->
  (forall uploaded, a <> app.ProcessDocuments uploaded) ->
  rag_chain (session_state w) = Some chain ->
  last (chat_history (session_state w)) = Some (HumanMessage q) ->
  let h := chat_history (session_state w) in
  let stream := chain_stream ext chain q (take (length h - 1) h) in
  let result := app.consume stream.1 "" [] in
  (app.script ext a w).1 =
    match stream.2 with
    | Some msg => Raise (ExternalError msg)
    | None => Rerun
    end /\
  session_state (app.script ext a w).2 =
    match stream.2 with
    | Some _ => session_state w
    | None =>
        set_suggested_questions []
          (set_chat_history (h ++ [AIMessage result.1 result.2]) (session_state w))
    end.
Proof.
  intros Hurl Hdocs Hchain Hlast h stream result.
  assert (Ha : a = app.Idle \/
               exists p, a = app.ChatInput p \/ exists i, a = app.ClickSuggestion i).
  { destruct a as [|url|uploaded|i|p].
    - by left.
    - by destruct (Hurl url).
    - by destruct (Hdocs uploaded).
    - right. exists "". right. by exists i.
    - right. exists p. by left. }
  destruct (script_answer ext w chain q a Ha Hchain Hlast) as (w' & Hs & ->).
  by cbn.
Qed.

Lemma pending_question_is_answered_first_witness :
  let out :=
    app.script scenario.services (app.ChatInput "Where is Paris?")
      scenario.pending_world in
  out.1 = Rerun /\
  chat_history (session_state out.2) =
    [HumanMessage "What is the capital of France?";
     AIMessage "Based on the provided context: Paris."
       [scenario.doc "Paris is the capital of France."]].
Proof.
  destruct (pending_question_is_answered_first scenario.services
              (app.ChatInput "Where is Paris?") scenario.pending_world
              scenario.france_chain "What is the capital of France?"
              ltac:(discriminate) ltac:(discriminate) eq_refl eq_refl)
    as [Hout Hsession].
  split; [exact Hout|]. rewrite Hsession. reflexivity.
Defined.

Section QuestionFlow.
Variable ext : Services.

(** What follows the run that appended a question: the answer run, then
    the redraw. *)
Lemma question_flow a w w1 chain q :
  app.script ext a (with_screen (fun _ => []) w) = (Rerun, w1) ->
  session_state w1 =
    set_chat_history (chat_history (session_state w) ++ [HumanMessage q])
      (session_state w) ->
  rag_chain (session_state w) = Some chain ->
  let h := chat_history (session_state w) in
  let stream := chain_stream ext chain q h in
  let result := app.consume stream.1 "" [] in
  (app.interact ext a w).1 =
    match stream.2 with
    | Some msg => app.Failed (ExternalError msg)
    | None => app.Completed
    end /\
  session_state (app.interact ext a w).2 =
    match stream.2 with
    | Some _ => set_chat_history (h ++ [HumanMessage q]) (session_state w)
    | None =>
        set_suggested_questions []
          (set_chat_history (h ++ [HumanMessage q; AIMessage result.1 result.2])
             (session_state w))
    end.
Proof.
  intros Hrun1 Hs1 Hchain h stream result.
  unfold app.interact. cbn [app.run]. rewrite Hrun1.
  assert (Hlast1 : last (chat_history (session_state (with_screen (fun _ => []) w1)))
                   = Some (HumanMessage q)).
  { cbn. rewrite Hs1. cbn. apply last_snoc. }
  assert (Hchain1 : rag_chain (session_state (with_screen (fun _ => []) w1))
                    = Some chain).
  { cbn. by rewrite Hs1. }
  destruct (script_answer ext _ chain q app.Idle (or_introl eq_refl) Hchain1 Hlast1)
    as (w2 & Hs2 & ->).
  assert (Hh : take (length (chat_history
                       (session_state (with_screen (fun _ => []) w1))) - 1)
                 (chat_history (session_state (with_screen (fun _ => []) w1))) = h).
  { cbn. rewrite Hs1. cbn. rewrite length_app, Nat.add_sub. apply take_app_length. }
  rewrite Hh in Hs2 |- *. cbn in Hs2. rewrite Hs1 in Hs2. cbn in Hs2.
  subst result stream. cbn zeta.
  destruct (chain_stream ext chain q h) as [chunks [msg|]];
    cbn in Hs2; cbn -[app.script].
  { split; [done|]. by rewrite Hs2. }
  destruct (script_idle ext (with_screen (fun _ => []) w2) chain)
    as (w3 & -> & Hs3).
  { cbn. by rewrite Hs2. }
  { intros p. cbn. rewrite Hs2. cbn. by rewrite last_snoc. }
  cbn in Hs3 |- *. rewrite Hs3, Hs2. split; [done|].
  unfold set_suggested_questions, set_chat_history. cbn.
  by rewrite <- app_assoc.
Qed.

(** The run that receives a click on a suggestion appends the suggested
    question and asks for a rerun. *)
Lemma script_click_suggestion w chain i q :
  rag_chain (session_state w) = Some chain ->
  app.settled w ->
  suggested_questions (session_state w) !! i = Some q ->
  exists w', app.script ext (app.ClickSuggestion i) w = (Rerun, w') /\
             session_state w' =
               set_chat_history
                 (chat_history (session_state w) ++ [HumanMessage q])
                 (session_state w).
Proof.
  intros Hchain Hsettled Hq. unfold app.settled in Hsettled.
  destruct w as [[rc h sq sn] cd cr fs ev sc ds]. cbn in *. subst rc.
  unfold app.script, app.sidebar, app.main_chat_interface, app.render_history,
    app.response_streaming, app.suggested_questions_block, app.chat_input_block,
    app.append_message, bind, get_session, modify_session, st_rerun, show, ret.
  cbn.
  destruct sq as [|q0 sq]; [discriminate|].
  destruct (last h) as [[p|c ctx]|] eqn:Hlast; [by destruct (Hsettled p)| |];
    cbn; rewrite Hq; cbn; (eexists; split; [reflexivity|]; reflexivity).
Qed.

Lemma ask_flow q w chain :
  rag_chain (session_state w) = Some chain ->
  app.settled w ->
  truthy_str q = true ->
  let h := chat_history (session_state w) in
  let stream := chain_stream ext chain q h in
  let result := app.consume stream.1 "" [] in
  (app.ask ext q w).1 =
    match stream.2 with
    | Some msg => app.Failed (ExternalError msg)
    | None => app.Completed
    end /\
  session_state (app.ask ext q w).2 =
    match stream.2 with
    | Some _ => set_chat_history (h ++ [HumanMessage q]) (session_state w)
    | None =>
        set_suggested_questions []
          (set_chat_history (h ++ [HumanMessage q; AIMessage result.1 result.2])
             (session_state w))
    end.
Proof.
  intros Hchain Hsettled Hq.
  destruct (script_chat_input ext (with_screen (fun _ => []) w) chain q)
    as (w1 & Hrun1 & Hs1); [done..|].
  exact (question_flow (app.ChatInput q) w w1 chain q Hrun1 Hs1 Hchain).
Qed.

End QuestionFlow.

(** X6.  What an [ask] leaves in the session.  With a chain in place, no
    question pending and a non-empty question: if the stream ends well
    the two turns are appended and the suggestions are dropped; if the
    stream breaks, the run fails, the question stays in the history
    without an answer and the suggestions are kept.  The chain and the
    source name are unchanged either way. *)
Theorem ask_session
  (ext : Services) (q : string) (w : World) (chain : RagChain) :
  rag_chain (session_state w) = Some chain ->
  app.settled w ->
  truthy_str q = true ->
  let h := chat_history (session_state w) in
  let stream := chain_stream ext chain q h in
  let result := app.consume stream.1 "" [] in
  (app.ask ext q w).1 =
    match stream.2 with
    | Some msg => app.Failed (ExternalError msg)
    | None => app.Completed
    end /\
  session_state (app.ask ext q w).2 =
    match stream.2 with
    | Some _ => set_chat_history (h ++ [HumanMessage q]) (session_state w)
    | None =>
        set_suggested_questions []
          (set_chat_history (h ++ [HumanMessage q; AIMessage result.1 result.2])
             (session_state w))
    end.
Proof. apply ask_flow. Qed.

Lemma ask_session_witness :
  let out := app.ask scenario.services "Please crash" scenario.indexed_world in
  out.1 = app.Failed (ExternalError "model overloaded") /\
  session_state out.2 =
    set_chat_history [HumanMessage "Please crash"]
      (session_state scenario.indexed_world).
Proof.
  assert (Hsettled : app.settled scenario.indexed_world)
    by (intros p; discriminate).
  exact (ask_session scenario.services "Please crash" scenario.indexed_world
           scenario.france_chain eq_refl Hsettled eq_refl).
Defined.

(** X7.  Clicking a suggested question is asking it: with a chain in
    place and no question pending, a click on the [i]-th suggestion ends
    as [ask] of that question does, with the same session. *)
Theorem suggestion_click_is_ask
  (ext : Services) (i : nat) (q : string) (w : World) (chain : RagChain) :
  rag_chain (session_state w) = Some chain ->
  app.settled w ->
  suggested_questions (session_state w) !! i = Some q ->
  truthy_str q = true ->
  (app.interact ext (app.ClickSuggestion i) w).1 = (app.ask ext q w).1 /\
  session_state (app.interact ext (app.ClickSuggestion i) w).2
    = session_state (app.ask ext q w).2.
Proof.
  intros Hchain Hsettled Hi Hq.
  destruct (script_click_suggestion ext (with_screen (fun _ => []) w) chain i q)
    as (w1 & Hrun1 & Hs1); [done..|].
  destruct (question_flow ext (app.ClickSuggestion i) w w1 chain q Hrun1 Hs1 Hchain)
    as [Hst Hse].
  destruct (ask_flow ext q w chain Hchain Hsettled Hq) as [Hst' Hse'].
  by rewrite Hst, Hse, Hst', Hse'.
Qed.

Lemma suggestion_click_is_ask_witness :
  let w := scenario.indexed_world in
  suggested_questions (session_state w) !! 1 = Some "Where is Paris?" /\
  (app.interact scenario.services (app.ClickSuggestion 1) w).1
    = (app.ask scenario.services "Where is Paris?" w).1 /\
  session_state (app.interact scenario.services (app.ClickSuggestion 1) w).2
    = session_state (app.ask scenario.services "Where is Paris?" w).2.
Proof.
  assert (Hsettled : app.settled scenario.indexed_world)
    by (intros p; discriminate).
  split; [reflexivity|].
  exact (suggestion_click_is_ask scenario.services 1 "Where is Paris?"
           scenario.indexed_world scenario.france_chain
           eq_refl Hsettled eq_refl eq_refl).
Defined.

(** ** The Streamlit caches *)

(** A call that returned is served again from the cache: same value, same
    world, whatever body the second call would have run. *)
Lemma cache_data_replay {A} (inj : A -> CacheVal) proj name key
  (body body' : M A) w v w1 :
  (forall a, proj (inj a) = Some a) ->
  st_cache_data inj proj name key body w = (Return v, w1) ->
  st_cache_data inj proj name key body' w1 = (Return v, w1).
Proof.
  intros Hproj. unfold st_cache_data.
  destruct (cache_data w !! (name, key) ≫= proj) as [v0|] eqn:Hhit.
  - intros [= <- <-]. by rewrite Hhit.
  - destruct (body w) as [[a|e|] w'] eqn:Hbody; [|done|done].
    intros [= <- <-]. cbn. by rewrite lookup_insert_eq; cbn; rewrite Hproj.
Qed.

Lemma cache_resource_replay {A} (inj : A -> CacheVal) proj name key
  (body body' : M A) w v w1 :
  (forall a, proj (inj a) = Some a) ->
  st_cache_resource inj proj name key body w = (Return v, w1) ->
  st_cache_resource inj proj name key body' w1 = (Return v, w1).
Proof.
  intros Hproj. unfold st_cache_resource.
  destruct (cache_resource w !! (name, key) ≫= proj) as [v0|] eqn:Hhit.
  - intros [= <- <-]. by rewrite Hhit.
  - destruct (body w) as [[a|e|] w'] eqn:Hbody; [|done|done].
    intros [= <- <-]. cbn. by rewrite lookup_insert_eq; cbn; rewrite Hproj.
Qed.

(** X8.  A transcript result is remembered, failures included: once
    [get_video_transcript] has returned for a URL ([None] after an error
    as well), calling it again for that URL returns the same value and
    does nothing else: no fetch, no download, until the cache is cleared. *)
Theorem transcript_result_is_remembered
  (ext : Services) (url : string) (w w1 : World) (result : option string) :
  video_processor.get_video_transcript ext url w = (Return result, w1) ->
  video_processor.get_video_transcript ext url w1 = (Return result, w1).
Proof. apply cache_data_replay. done. Qed.

Lemma transcript_result_is_remembered_witness :
  let url := "https://www.youtube.com/watch?v=removed" in
  let out := video_processor.get_video_transcript scenario.services url initial_world in
  ytt_fetch scenario.services "removed" = FetchFailed "video unavailable" /\
  out.1 = Return None /\
  video_processor.get_video_transcript scenario.services url out.2
    = (Return None, out.2).
Proof.
  assert (Hnone :
    (video_processor.get_video_transcript scenario.services
       "https://www.youtube.com/watch?v=removed" initial_world).1 = Return None)
    by (vm_compute; reflexivity).
  split; [vm_compute; reflexivity|]. split; [exact Hnone|].
  exact (transcript_result_is_remembered scenario.services
           "https://www.youtube.com/watch?v=removed" initial_world
           (video_processor.get_video_transcript scenario.services
              "https://www.youtube.com/watch?v=removed" initial_world).2
           None (pair_of_parts _ _ Hnone)).
Defined.

(** X9.  The documents are no part of the cache key of
    [generate_suggested_questions]: once it has returned, a call with any
    other documents returns the same questions without asking the model,
    until the cache is cleared. *)
Theorem suggestions_ignore_documents_when_cached
  (ext : Services) (docs docs' : list Document) (w w1 : World) (qs : list string) :
  app.generate_suggested_questions ext docs w = (Return qs, w1) ->
  app.generate_suggested_questions ext docs' w1 = (Return qs, w1).
Proof. apply cache_data_replay. done. Qed.

Lemma suggestions_ignore_documents_when_cached_witness :
  let docs := [scenario.doc "Paris is the capital of France."] in
  let out := app.generate_suggested_questions scenario.services docs initial_world in
  out.1 = Return ["What is the capital of France?"; "Where is Paris?"] /\
  app.generate_suggested_questions scenario.services [] out.2
    = (Return ["What is the capital of France?"; "Where is Paris?"], out.2).
Proof.
  assert (Hqs :
    (app.generate_suggested_questions scenario.services
       [scenario.doc "Paris is the capital of France."] initial_world).1
    = Return ["What is the capital of France?"; "Where is Paris?"])
    by (vm_compute; reflexivity).
  split; [exact Hqs|].
  exact (suggestions_ignore_documents_when_cached scenario.services
           [scenario.doc "Paris is the capital of France."] [] initial_world
           (app.generate_suggested_questions scenario.services
              [scenario.doc "Paris is the capital of France."] initial_world).2
           _ (pair_of_parts _ _ Hqs)).
Defined.

(** X10.  The retriever is no part of the cache key of
    [create_rag_chain]: once it has returned a chain, a call with any
    other retriever returns that same chain, over the first retriever,
    until the cache is cleared. *)
Theorem rag_chain_ignores_retriever_when_cached
  (ext : Services) (retriever retriever' : Retriever) (w w1 : World)
  (chain : RagChain) :
  rag_pipeline.create_rag_chain ext retriever w = (Return chain, w1) ->
  rag_pipeline.create_rag_chain ext retriever' w1 = (Return chain, w1).
Proof. apply cache_resource_replay. done. Qed.

Lemma rag_chain_ignores_retriever_when_cached_witness :
  let old := as_retriever {| indexed_chunks := [scenario.doc "Paris"] |} in
  let new := as_retriever {| indexed_chunks := [scenario.doc "Berlin"] |} in
  let out := rag_pipeline.create_rag_chain scenario.services old initial_world in
  out.1 = Return {| chain_retriever := old |} /\
  rag_pipeline.create_rag_chain scenario.services new out.2
    = (Return {| chain_retriever := old |}, out.2).
Proof.
  assert (Hchain :
    (rag_pipeline.create_rag_chain scenario.services
       (as_retriever {| indexed_chunks := [scenario.doc "Paris"] |})
       initial_world).1
    = Return {| chain_retriever :=
                  as_retriever {| indexed_chunks := [scenario.doc "Paris"] |} |})
    by (vm_compute; reflexivity).
  split; [exact Hchain|].
  exact (rag_chain_ignores_retriever_when_cached scenario.services
           (as_retriever {| indexed_chunks := [scenario.doc "Paris"] |})
           (as_retriever {| indexed_chunks := [scenario.doc "Berlin"] |})
           initial_world
           (rag_pipeline.create_rag_chain scenario.services
              (as_retriever {| indexed_chunks := [scenario.doc "Paris"] |})
              initial_world).2
           _ (pair_of_parts _ _ Hchain)).
Defined.

(** ** The URL form *)

(** X11.  A URL that names YouTube but has no ["v="] in it (a [youtu.be]
    short link, a channel page) is never processed: when the body of
    [get_video_transcript] runs, [process_url] only shows "Could not
    retrieve content."; no transcript is fetched, nothing is downloaded
    and the session is left as it was. *)
Theorem youtube_url_without_id_is_refused
  (ext : Services) (url : string) (w : World) :
  truthy_str url = true ->
  Py.contains "youtube.com" url || Py.contains "youtu.be" url = true ->
  Py.contains "v=" url = false ->
  cache_data w !! ("get_video_transcript", [ArgStr url]) = None ->
  let out := app.process_url ext url w in
  out.1 = Return tt /\
  screen out.2 = screen w ++ [Error "Could not retrieve content."] /\
  events out.2 = events w /\
  files out.2 = files w /\
  session_state out.2 = session_state w.
Proof.
  intros Hurl Hyt Hno Hmiss out. subst out.
  assert (Hrun :
    video_processor.get_video_transcript ext url w =
      (Return None,
       with_cache_data (<[("get_video_transcript", [ArgStr url]) := CvText None]>) w)).
  { unfold video_processor.get_video_transcript.
    rewrite st_cache_data_miss by done.
    unfold try_except, bind. by rewrite (video_id_of_no_marker url Hno). }
  unfold app.process_url. rewrite Hurl, Hyt.
  unfold bind. rewrite Hrun. cbn. done.
Qed.

Lemma youtube_url_without_id_is_refused_witness :
  let out :=
    app.process_url scenario.services "https://youtu.be/captioned"
      scenario.indexed_world in
  out.1 = Return tt /\
  screen out.2 = screen scenario.indexed_world ++ [Error "Could not retrieve content."] /\
  events out.2 = events scenario.indexed_world /\
  files out.2 = files scenario.indexed_world /\
  session_state out.2 = session_state scenario.indexed_world.
Proof.
  apply (youtube_url_without_id_is_refused scenario.services
           "https://youtu.be/captioned" scenario.indexed_world).
  - reflexivity.
  - vm_compute. reflexivity.
  - vm_compute. reflexivity.
  - vm_compute. reflexivity.
Defined.

(** ** The streaming loop *)

Lemma string_app_nil_r (s : string) : s +:+ "" = s.
Proof.
  induction s as [|c s IH]; [reflexivity|].
  change (String c (s +:+ "") = String c s). by rewrite IH.
Qed.

Lemma string_app_assoc (s1 s2 s3 : string) :
  (s1 +:+ s2) +:+ s3 = s1 +:+ (s2 +:+ s3).
Proof.
  induction s1 as [|c s1 IH]; [reflexivity|].
  change (String c ((s1 +:+ s2) +:+ s3) = String c (s1 +:+ (s2 +:+ s3))).
  by rewrite IH.
Qed.

Lemma join_empty_cons (x : string) (l : list string) :
  Py.join "" (x :: l) = x +:+ Py.join "" l.
Proof. destruct l; cbn [Py.join]; [by rewrite string_app_nil_r | reflexivity]. Qed.

Lemma consume_text chunks full_response context_docs :
  (app.consume chunks full_response context_docs).1 =
    full_response +:+ Py.join "" (omap get_answer chunks).
Proof.
  revert full_response context_docs.
  induction chunks as [|chunk chunks IH]; intros full_response context_docs.
  { cbn [app.consume omap list_omap Py.join fst]. by rewrite string_app_nil_r. }
  cbn [app.consume omap list_omap]. rewrite IH.
  destruct (get_answer chunk) as [answer|]; [|reflexivity].
  rewrite join_empty_cons.
  destruct answer as [|c answer]; cbn [truthy_str].
  - reflexivity.
  - by rewrite string_app_assoc.
Qed.

Lemma consume_context chunks full_response context_docs :
  (app.consume chunks full_response context_docs).2 =
    default context_docs
      (last (List.filter truthy_list (omap get_context chunks))).
Proof.
  revert full_response context_docs.
  induction chunks as [|chunk chunks IH]; intros full_response context_docs;
    [reflexivity|].
  cbn [app.consume omap list_omap]. rewrite IH.
  destruct (get_context chunk) as [[|d ctx]|]; cbn [truthy_list List.filter];
    try reflexivity.
  destruct (List.filter truthy_list (omap get_context chunks)) as [|x l] eqn:E;
    [reflexivity|].
  rewrite last_cons_cons.
  destruct (last (x :: l)) eqn:El; [reflexivity|].
  apply last_None in El. discriminate.
Qed.

(** X12.  The text of a streamed answer is the concatenation, in order,
    of the answer pieces of the stream; its context is the last non-empty
    context the stream yielded, or the empty list if there is none. *)
Theorem consume_collects_the_stream (chunks : list StreamChunk) :
  (app.consume chunks "" []).1 = Py.join "" (omap get_answer chunks) /\
  (app.consume chunks "" []).2 =
    default [] (last (List.filter truthy_list (omap get_context chunks))).
Proof. split; [apply consume_text | apply consume_context]. Qed.

(** ** Suggested questions *)

(** X13.  When its body runs, [generate_suggested_questions] reads the
    first three documents only: further documents change nothing in what
    it returns.  For an empty list it returns no question and does not
    call the language model. *)
Theorem suggestions_read_three_documents
  (ext : Services) (docs : list Document) (w : World) :
  cache_data w !! ("generate_suggested_questions", []) = None ->
  (app.generate_suggested_questions ext docs w).1
    = (app.generate_suggested_questions ext (take 3 docs) w).1 /\
  (app.generate_suggested_questions ext [] w).1 = Return [] /\
  events (app.generate_suggested_questions ext [] w).2 = events w.
Proof.
  intros Hmiss. split.
  - destruct (generate_suggested_questions_fresh ext docs w Hmiss) as [-> _].
    destruct (generate_suggested_questions_fresh ext (take 3 docs) w Hmiss)
      as [-> _].
    f_equal. unfold app.fresh_suggestions. rewrite take_idemp. by destruct docs.
  - unfold app.generate_suggested_questions.
    rewrite st_cache_data_miss by done. done.
Qed.

Lemma suggestions_read_three_documents_witness :
  let docs :=
    [scenario.doc "one"; scenario.doc "two"; scenario.doc "three";
     scenario.doc "four"] in
  (app.generate_suggested_questions scenario.services docs initial_world).1
    = (app.generate_suggested_questions scenario.services (take 3 docs)
         initial_world).1 /\
  (app.generate_suggested_questions scenario.services [] initial_world).1
    = Return [] /\
  events (app.generate_suggested_questions scenario.services [] initial_world).2
    = events initial_world.
Proof.
  apply (suggestions_read_three_documents scenario.services
           [scenario.doc "one"; scenario.doc "two"; scenario.doc "three";
            scenario.doc "four"] initial_world).
  vm_compute. reflexivity.
Defined.

(** ** The video id *)

Lemma prefix_cons (c d : ascii) (p s : string) :
  String.prefix (String c p) (String d s) =
    if ascii_dec c d then String.prefix p s else false.
Proof. reflexivity. Qed.

Lemma prefix_nil (s : string) : String.prefix "" s = true.
Proof. by destruct s. Qed.

(** A stretch of text without ["v="], followed by something that does not
    start with ["="], is passed over by [split("v=")] as a whole. *)
Lemma split_from_v_free (pre tail cur : string) :
  Py.contains "v=" pre = false ->
  String.prefix "=" tail = false ->
  Py.split_from "v=" 0 cur (pre +:+ tail) = Py.split_from "v=" 0 (cur +:+ pre) tail.
Proof.
  revert cur. induction pre as [|c pre IH]; intros cur Hfree Htail.
  { by rewrite string_app_nil_r. }
  cbn [Py.contains] in Hfree. apply orb_false_iff in Hfree as [Hhead Hfree].
  change (String c pre +:+ tail) with (String c (pre +:+ tail)).
  cbn [Py.split_from].
  assert (Hno : String.prefix "v=" (String c (pre +:+ tail)) = false).
  { rewrite prefix_cons in Hhead |- *.
    destruct (ascii_dec "v" c) as [<-|]; [|reflexivity].
    destruct pre as [|d pre]; [exact Htail|].
    change (String d pre +:+ tail) with (String d (pre +:+ tail)).
    rewrite prefix_cons in Hhead |- *.
    destruct (ascii_dec "=" d); [|reflexivity].
    by rewrite prefix_nil in Hhead. }
  rewrite Hno, IH by done.
  by rewrite string_app_assoc.
Qed.

Lemma split_from_amp_free (pre tail cur : string) :
  Py.contains "&" pre = false ->
  Py.split_from "&" 0 cur (pre +:+ tail) = Py.split_from "&" 0 (cur +:+ pre) tail.
Proof.
  revert cur. induction pre as [|c pre IH]; intros cur Hfree.
  { by rewrite string_app_nil_r. }
  cbn [Py.contains] in Hfree. apply orb_false_iff in Hfree as [Hhead Hfree].
  change (String c pre +:+ tail) with (String c (pre +:+ tail)).
  cbn [Py.split_from].
  assert (Hno : String.prefix "&" (String c (pre +:+ tail)) = false).
  { rewrite prefix_cons in Hhead |- *.
    destruct (ascii_dec "&" c); [|reflexivity].
    by rewrite prefix_nil in Hhead. }
  rewrite Hno, IH by done.
  by rewrite string_app_assoc.
Qed.

(** The first piece of a split starts with what was gathered so far and
    goes on with a prefix of the text still to be read. *)
Lemma split_from_first_piece (s cur : string) :
  exists x y others,
    Py.split_from "v=" 0 cur s = (cur +:+ x) :: others /\ s = x +:+ y.
Proof.
  revert cur. induction s as [|c s IH]; intros cur.
  { exists "", "", []. by rewrite string_app_nil_r. }
  cbn [Py.split_from].
  destruct (String.prefix "v=" (String c s)).
  - exists "", (String c s), (Py.split_from "v=" (String.length "v=" - 1) "" s).
    by rewrite string_app_nil_r.
  - destruct (IH (cur +:+ String c "")) as (x & y & others & -> & ->).
    exists (String c x), y, others. by rewrite string_app_assoc.
Qed.

(** X14.  The video id is what stands between the first ["v="] of the URL
    and the ["&"] that follows it, or the end of the URL. *)
Theorem video_id_between_markers (pre id rest : string) :
  Py.contains "v=" pre = false ->
  Py.contains "v=" id = false ->
  Py.contains "&" id = false ->
  (rest = "" \/ exists r, rest = "&" +:+ r) ->
  video_processor.video_id_of (pre +:+ "v=" +:+ id +:+ rest) = inr id.
Proof.
  intros Hpre Hid Hamp Hrest.
  assert (Htail : String.prefix "=" rest = false)
    by (by destruct Hrest as [->|[r ->]]).
  unfold video_processor.video_id_of, Py.split.
  rewrite split_from_v_free by done.
  change ("v=" +:+ id +:+ rest) with (String "v" (String "=" (id +:+ rest))).
  assert (Hmatch : forall cur t,
    Py.split_from "v=" 0 cur (String "v" (String "=" t))
    = cur :: Py.split_from "v=" 0 "" t).
  { intros cur t. cbn [Py.split_from]. rewrite !prefix_cons, prefix_nil.
    destruct (ascii_dec "v" "v"); [|done]. by destruct (ascii_dec "=" "="). }
  rewrite Hmatch. cbn [Py.index lookup list_lookup].
  rewrite split_from_v_free by done.
  destruct (split_from_first_piece rest ("" +:+ id)) as (x & y & others & -> & Hxy).
  cbn [Py.index lookup list_lookup].
  change ("" +:+ id) with id.
  assert (Hx : x = "" \/ exists x', x = "&" +:+ x').
  { destruct Hrest as [->|[r ->]].
    - destruct x; [by left | discriminate].
    - destruct x as [|c x]; [by left|]. right. exists x.
      change (String c x +:+ y) with (String c (x +:+ y)) in Hxy.
      by injection Hxy as <- _. }
  rewrite split_from_amp_free by done.
  destruct Hx as [->|[x' ->]]; [reflexivity|].
  change ("&" +:+ x') with (String "&" x').
  cbn [Py.split_from]. rewrite prefix_cons, prefix_nil.
  by destruct (ascii_dec "&" "&").
Qed.

Lemma video_id_between_markers_witness :
  video_processor.video_id_of
    ("https://www.youtube.com/watch?" +:+ "v=" +:+ "dQw4w9WgXcQ" +:+ "&t=42")
  = inr "dQw4w9WgXcQ".
Proof.
  apply (video_id_between_markers "https://www.youtube.com/watch?"
           "dQw4w9WgXcQ" "&t=42").
  - reflexivity.
  - reflexivity.
  - reflexivity.
  - right. by exists "t=42".
Defined.

(** ** What an ingest does to the caches *)

Section CachesOfIngest.
Variable ext : Services.

Lemma create_vector_store_caches docs w :
  let out := vector_store.create_vector_store ext docs w in
  cache_data out.2 = cache_data w /\
  (cache_resource out.2 = cache_resource w \/
   exists v, cache_resource out.2 =
               <[("create_vector_store", [ArgDocs docs]) := v]> (cache_resource w)).
Proof.
  unfold vector_store.create_vector_store, st_cache_resource, bind, record_event,
    of_error, ret, raise.
  destruct (_ ≫= proj_store); [by split; [|left]|].
  destruct (negb (truthy_list docs)); [by split; [|left]|].
  destruct (negb (truthy_list _)); [by split; [|left]|]. cbn.
  destruct (embedding_init_error ext); [by split; [|left]|].
  destruct (chroma_insert_error ext _); [by split; [|left]|].
  cbn. split; [done|]. right. by eexists.
Qed.

Lemma create_rag_chain_caches retriever w :
  let out := rag_pipeline.create_rag_chain ext retriever w in
  cache_data out.2 = cache_data w /\
  (cache_resource out.2 = cache_resource w \/
   exists v, cache_resource out.2 =
               <[("create_rag_chain", []) := v]> (cache_resource w)).
Proof.
  unfold rag_pipeline.create_rag_chain, st_cache_resource, try_except, bind,
    record_event, of_error, ret, raise.
  destruct (_ ≫= proj_chain); [by split; [|left]|]. cbn.
  destruct (llm_init_error ext); [by split; [|left]|].
  cbn. split; [done|]. right. by eexists.
Qed.

Lemma generate_suggested_questions_caches docs w :
  let out := app.generate_suggested_questions ext docs w in
  cache_resource out.2 = cache_resource w /\
  (cache_data out.2 = cache_data w \/
   exists v, cache_data out.2 =
               <[("generate_suggested_questions", []) := v]> (cache_data w)).
Proof.
  unfold app.generate_suggested_questions, st_cache_data, try_except, bind,
    record_event, of_error, of_ext, ret, raise.
  destruct (_ ≫= proj_questions); [by split; [|left]|].
  destruct (negb (truthy_list docs)); cbn; [split; [done|]; right; by eexists|].
  destruct (llm_init_error ext); cbn; [split; [done|]; right; by eexists|].
  destruct (llm_invoke ext _); cbn; (split; [done|]; right; by eexists).
Qed.

End CachesOfIngest.

(** X15.  [process_new_source] forgets every cached result, also when it
    fails: whatever its outcome, the data cache holds at most the new
    suggested questions, and the resource cache at most the new index and
    the new chain.  Transcripts, pages and documents cached before have
    to be extracted again. *)
Theorem process_new_source_forgets_cached_results
  (ext : Services) (docs : list Document) (name : string) (w : World) :
  let out := app.process_new_source ext docs name w in
  (forall key v,
     cache_data out.2 !! key = Some v ->
     key = ("generate_suggested_questions", [])) /\
  (forall key v,
     cache_resource out.2 !! key = Some v ->
     key = ("create_vector_store", [ArgDocs docs]) \/
     key = ("create_rag_chain", [])).
Proof.
  intros out. subst out.
  set (P := fun w' : World =>
    (forall key v, cache_data w' !! key = Some v ->
                   key = ("generate_suggested_questions", [])) /\
    (forall key v, cache_resource w' !! key = Some v ->
                   key = ("create_vector_store", [ArgDocs docs]) \/
                   key = ("create_rag_chain", []))).
  change (P (app.process_new_source ext docs name w).2).
  unfold app.process_new_source.
  unfold bind at 1. cbn [st_cache_resource_clear]. unfold bind at 1.
  cbn [st_cache_data_clear].
  set (w0 := with_cache_data _ _).
  assert (Hd0 : cache_data w0 = ∅) by reflexivity.
  assert (Hr0 : cache_resource w0 = ∅) by reflexivity.
  clearbody w0.
  assert (Hsmall : forall w' : World,
    cache_data w' = ∅ ->
    (cache_resource w' = ∅ \/
     exists v, cache_resource w' = <[("create_vector_store", [ArgDocs docs]) := v]> ∅) ->
    P w').
  { intros w' Hd Hr. split; intros key v; [by rewrite Hd|].
    destruct Hr as [->|[v0 ->]]; [done|].
    intros [[<- _]|[_ ?]]%lookup_insert_Some; [by left | done]. }
  unfold bind at 1.
  destruct (create_vector_store_caches ext docs w0) as [Hd1 Hr1].
  destruct (vector_store.create_vector_store ext docs w0) as [[vs|e|] w1];
    cbn in Hd1, Hr1 |- *; rewrite Hd0 in Hd1; rewrite Hr0 in Hr1;
    try (by apply Hsmall).
  unfold bind at 1.
  destruct (create_rag_chain_caches ext (as_retriever vs) w1) as [Hd2 Hr2].
  assert (Hkeys : forall w' : World,
    (cache_data w' = ∅ \/
     exists v, cache_data w' = <[("generate_suggested_questions", []) := v]> ∅) ->
    (cache_resource w' = cache_resource w1 \/
     exists v, cache_resource w' =
                 <[("create_rag_chain", []) := v]> (cache_resource w1)) ->
    P w').
  { intros w' Hd Hr. split; intros key v.
    - destruct Hd as [->|[v0 ->]]; [done|].
      by intros [[<- _]|[_ ?]]%lookup_insert_Some.
    - destruct Hr as [->|[v0 ->]].
      + destruct Hr1 as [->|[v1 ->]]; [done|].
        intros [[<- _]|[_ ?]]%lookup_insert_Some; [by left | done].
      + intros [[<- _]|[_ H]]%lookup_insert_Some; [by right|].
        destruct Hr1 as [Hr1|[v1 Hr1]]; rewrite Hr1 in H; [done|].
        apply lookup_insert_Some in H as [[<- _]|[_ ?]]; [by left | done]. }
  clearbody P.
  destruct (rag_pipeline.create_rag_chain ext (as_retriever vs) w1)
    as [[chain|e|] w2]; cbn in Hd2, Hr2 |- *; rewrite Hd1 in Hd2;
    try (apply Hkeys; [by left | done]).
  unfold bind, modify_session, show. cbn.
  set (w3 := with_session _ _).
  destruct (generate_suggested_questions_caches ext docs w3) as [Hr3 Hd3].
  assert (Hd3' : cache_data w3 = ∅) by (subst w3; cbn; done).
  assert (Hr3' : cache_resource w3 = cache_resource w2) by reflexivity.
  clearbody w3.
  destruct (app.generate_suggested_questions ext docs w3) as [[qs|e|] w4];
    cbn in Hr3, Hd3 |- *; rewrite Hd3' in Hd3; rewrite Hr3' in Hr3;
    apply Hkeys; cbn; try done; by rewrite Hr3.
Qed.

(** X16.  The page-loading path has no handler: when the loader of a web
    page fails, the exception leaves [process_url] and ends the run of the
    script.  No "Could not retrieve content." is shown, nothing is
    cached for the URL, and the session is left as it was.  (A video URL,
    by contrast, never ends the run this way.) *)
Theorem webpage_failure_is_uncaught
  (ext : Services) (url msg : string) (w : World) :
  truthy_str url = true ->
  Py.contains "youtube.com" url = false ->
  Py.contains "youtu.be" url = false ->
  cache_data w !! ("load_from_webpage", [ArgStr url]) = None ->
  web_base_loader ext url = ExtFail msg ->
  let out := app.interact ext (app.ProcessURL url) w in
  out.1 = app.Failed (ExternalError msg) /\
  screen out.2 = [] /\
  cache_data out.2 = cache_data w /\
  session_state out.2 = session_state w.
Proof.
  intros Hurl Hyt Hbe Hmiss Hfail out. subst out.
  assert (Hrun :
    app.script ext (app.ProcessURL url) (with_screen (fun _ => []) w) =
      (Raise (ExternalError msg),
       with_events (fun l => l ++ [EvWebLoad url])
         (with_screen (fun _ => []) w))).
  { unfold app.script, app.sidebar, app.process_url.
    rewrite Hurl, Hyt, Hbe. cbn [orb].
    unfold data_loader.load_from_webpage.
    unfold bind at 1. unfold bind at 1.
    rewrite st_cache_data_miss by done.
    unfold bind, record_event. cbn. by rewrite Hfail. }
  unfold app.interact, app.run. by rewrite Hrun.
Qed.

Lemma webpage_failure_is_uncaught_witness :
  let out :=
    app.interact scenario.services (app.ProcessURL "https://unreachable.example")
      scenario.indexed_world in
  out.1 = app.Failed (ExternalError "connection refused") /\
  screen out.2 = [] /\
  cache_data out.2 = cache_data scenario.indexed_world /\
  session_state out.2 = session_state scenario.indexed_world.
Proof.
  apply (webpage_failure_is_uncaught scenario.services
           "https://unreachable.example" "connection refused"
           scenario.indexed_world).
  - reflexivity.
  - vm_compute. reflexivity.
  - vm_compute. reflexivity.
  - vm_compute. reflexivity.
  - vm_compute. reflexivity.
Defined.

(** ** How an ingest ends *)

Section IngestOutcome.
Variable ext : Services.

Lemma create_vector_store_run docs w :
  cache_resource w !! ("create_vector_store", [ArgDocs docs]) = None ->
  let chunks :=
    split_documents ext vector_store.chunk_size vector_store.chunk_overlap docs in
  (vector_store.create_vector_store ext docs w).1 =
    if negb (truthy_list docs)
    then Raise (ValueError "Cannot create vector store from empty documents list.")
    else if negb (truthy_list chunks)
    then Raise (ValueError "Documents could not be split into chunks.")
    else match embedding_init_error ext with
         | Some msg => Raise (ExternalError msg)
         | None =>
             match chroma_insert_error ext chunks with
             | Some msg => Raise (ExternalError msg)
             | None => Return {| indexed_chunks := chunks |}
             end
         end.
Proof.
  intros Hmiss chunks. subst chunks. unfold vector_store.create_vector_store.
  rewrite st_cache_resource_miss by done.
  destruct (negb (truthy_list docs)); [done|].
  destruct (negb (truthy_list _)); [done|].
  unfold bind, record_event, of_error, ret, raise. cbn.
  destruct (embedding_init_error ext); [done|].
  by destruct (chroma_insert_error ext _).
Qed.

Lemma create_rag_chain_run retriever w :
  cache_resource w !! ("create_rag_chain", []) = None ->
  (rag_pipeline.create_rag_chain ext retriever w).1 =
    match llm_init_error ext with
    | Some msg => Raise (ExternalError msg)
    | None => Return {| chain_retriever := retriever |}
    end.
Proof.
  intros Hmiss. unfold rag_pipeline.create_rag_chain.
  rewrite st_cache_resource_miss by done.
  unfold try_except, bind, record_event, of_error, ret, raise. cbn.
  by destruct (llm_init_error ext).
Qed.

End IngestOutcome.

Lemma process_new_source_ends (ext : Services) docs name w :
  let chunks :=
    split_documents ext vector_store.chunk_size vector_store.chunk_overlap docs in
  (app.process_new_source ext docs name w).1 =
    if negb (truthy_list docs)
    then Raise (ValueError "Cannot create vector store from empty documents list.")
    else if negb (truthy_list chunks)
    then Raise (ValueError "Documents could not be split into chunks.")
    else match embedding_init_error ext with
         | Some msg => Raise (ExternalError msg)
         | None =>
             match chroma_insert_error ext chunks with
             | Some msg => Raise (ExternalError msg)
             | None =>
                 match llm_init_error ext with
                 | Some msg => Raise (ExternalError msg)
                 | None => Return tt
                 end
             end
         end.
Proof.
  intros chunks. unfold app.process_new_source.
  rewrite bind_run. cbn [st_cache_resource_clear].
  rewrite bind_run. cbn [st_cache_data_clear].
  set (w0 := with_cache_data _ _).
  assert (Hr0 : cache_resource w0 = ∅) by reflexivity.
  clearbody w0. rewrite bind_run.
  pose proof (create_vector_store_run ext docs w0) as Hvs.
  rewrite Hr0 in Hvs. specialize (Hvs (lookup_empty _)). cbv zeta in Hvs.
  destruct (create_vector_store_caches ext docs w0) as [_ Hr1].
  rewrite Hr0 in Hr1.
  fold chunks in Hvs.
  destruct (vector_store.create_vector_store ext docs w0) as [o1 w1].
  cbn [fst snd] in Hvs, Hr1. subst o1.
  destruct (negb (truthy_list docs)); [done|].
  destruct (negb (truthy_list chunks)); [done|].
  destruct (embedding_init_error ext); [done|].
  destruct (chroma_insert_error ext chunks); [done|].
  rewrite bind_run.
  pose proof (create_rag_chain_run ext
                (as_retriever {| indexed_chunks := chunks |}) w1) as Hchain.
  assert (Hmiss : cache_resource w1 !! ("create_rag_chain", []) = None).
  { destruct Hr1 as [->|[v ->]]; [done|]. by rewrite lookup_insert_ne. }
  specialize (Hchain Hmiss).
  destruct (rag_pipeline.create_rag_chain ext _ w1) as [o2 w2].
  cbn [fst] in Hchain. subst o2.
  destruct (llm_init_error ext); [done|].
  unfold bind at 1, modify_session at 1. cbn.
  rewrite bind_run.
  destruct (generate_suggested_questions_returns ext docs
    (with_session (set_source_name name)
       (with_session (set_chat_history [])
          (with_session (set_rag_chain
             (Some {| chain_retriever :=
                        as_retriever {| indexed_chunks := chunks |} |})) w2))))
    as [qs Hqs].
  destruct (app.generate_suggested_questions ext docs _) as [o3 w3].
  cbn [fst] in Hqs. subst o3. done.
Qed.

(** The session a successful ingest leaves. *)
Lemma process_new_source_return (ext : Services) docs name w w' :
  app.process_new_source ext docs name w = (Return tt, w') ->
  session_state w' =
    {| rag_chain :=
         Some {| chain_retriever :=
                   as_retriever
                     {| indexed_chunks :=
                          split_documents ext vector_store.chunk_size
                            vector_store.chunk_overlap docs |} |};
       chat_history := [];
       suggested_questions := app.fresh_suggestions ext docs;
       source_name := name |}.
Proof.
  unfold app.process_new_source. intros H.
  apply bind_return_inv in H as (? & w1 & [= _ <-] & H).
  apply bind_return_inv in H as (? & w2 & [= _ <-] & H).
  apply bind_return_inv in H as (vs & w3 & Hvs & H).
  apply create_vector_store_fresh in Hvs as (-> & Hdata3 & Hres3); [|done].
  apply bind_return_inv in H as (chain & w4 & Hchain & H).
  apply create_rag_chain_fresh in Hchain as (-> & Hdata4);
    [|by rewrite Hres3, lookup_insert_ne].
  apply bind_return_inv in H as (? & w5 & [= _ <-] & H).
  apply bind_return_inv in H as (? & w6 & [= _ <-] & H).
  apply bind_return_inv in H as (? & w7 & [= _ <-] & H).
  apply bind_return_inv in H as (questions & w8 & Hq & H).
  apply bind_return_inv in H as (? & w9 & [= _ <-] & H).
  injection H as <-.
  match type of Hq with
  | app.generate_suggested_questions _ _ ?W = _ =>
      destruct (generate_suggested_questions_fresh ext docs W) as [Hfresh Hkeep];
        [cbn; by rewrite Hdata4, Hdata3|]
  end.
  rewrite Hq in Hfresh, Hkeep. cbn in Hfresh, Hkeep. injection Hfresh as ->.
  cbn. rewrite Hkeep. cbn. by destruct (session_state w4).
Qed.

(** X17.  How [process_new_source] ends, whatever the state it is called
    in: with the [ValueError] of an empty document list; else with the
    [ValueError] of documents that give no chunk; else with the failure of
    the embedding model, of the vector database or of the language model,
    in this order; and it returns in every other case.  A failure while
    the questions are generated does not make it fail. *)
Theorem process_new_source_outcome
  (ext : Services) (docs : list Document) (name : string) (w : World) :
  let chunks :=
    split_documents ext vector_store.chunk_size vector_store.chunk_overlap docs in
  (app.process_new_source ext docs name w).1 =
    if negb (truthy_list docs)
    then Raise (ValueError "Cannot create vector store from empty documents list.")
    else if negb (truthy_list chunks)
    then Raise (ValueError "Documents could not be split into chunks.")
    else match embedding_init_error ext with
         | Some msg => Raise (ExternalError msg)
         | None =>
             match chroma_insert_error ext chunks with
             | Some msg => Raise (ExternalError msg)
             | None =>
                 match llm_init_error ext with
                 | Some msg => Raise (ExternalError msg)
                 | None => Return tt
                 end
             end
         end.
Proof. exact (process_new_source_ends ext docs name w). Qed.

(** X18.  Processing the URL of a web page, end to end: when the page
    loads into documents that give at least one chunk and neither the
    embedding model, the vector database nor the language model fails,
    the script reruns once and reaches its end; the session then holds a
    chain over the chunks of the page, an empty history, the questions
    computed from the page, and the URL as source name. *)
Theorem page_is_ingested
  (ext : Services) (url : string) (docs : list Document) (w : World) :
  truthy_str url = true ->
  Py.contains "youtube.com" url = false ->
  Py.contains "youtu.be" url = false ->
  cache_data w !! ("load_from_webpage", [ArgStr url]) = None ->
  web_base_loader ext url = ExtOk docs ->
  truthy_list docs = true ->
  truthy_list (split_documents ext vector_store.chunk_size
                 vector_store.chunk_overlap docs) = true ->
  embedding_init_error ext = None ->
  chroma_insert_error ext
    (split_documents ext vector_store.chunk_size vector_store.chunk_overlap docs)
    = None ->
  llm_init_error ext = None ->
  let out := app.interact ext (app.ProcessURL url) w in
  out.1 = app.Completed /\
  session_state out.2 =
    {| rag_chain :=
         Some {| chain_retriever :=
                   as_retriever
                     {| indexed_chunks :=
                          split_documents ext vector_store.chunk_size
                            vector_store.chunk_overlap docs |} |};
       chat_history := [];
       suggested_questions := app.fresh_suggestions ext docs;
       source_name := url |}.
Proof.
  intros Hurl Hyt Hbe Hmiss Hload Hdocs Hchunks Hemb Hchroma Hllm out.
  subst out.
  set (S := {| rag_chain := _; chat_history := _; suggested_questions := _;
               source_name := _ |}).
  assert (Hrun : exists w1,
    app.script ext (app.ProcessURL url) (with_screen (fun _ => []) w) = (Rerun, w1)
    /\ session_state w1 = S).
  { unfold app.script, app.sidebar, app.process_url.
    rewrite Hurl, Hyt, Hbe. cbn [orb].
    unfold data_loader.load_from_webpage.
    rewrite bind_run, bind_run.
    rewrite st_cache_data_miss by done.
    unfold bind at 1, record_event at 1. cbn [fst snd].
    rewrite Hload. cbn [of_ext ret]. rewrite Hdocs.
    rewrite bind_run.
    match goal with
    | |- context [app.process_new_source ext docs url ?W] =>
        pose proof (process_new_source_ends ext docs url W) as Hend;
        pose proof (process_new_source_return ext docs url W) as Hret;
        destruct (app.process_new_source ext docs url W) as [o w1]
    end.
    cbn [fst] in Hend.
    rewrite Hdocs, Hchunks, Hemb, Hchroma, Hllm in Hend. cbn in Hend. subst o.
    exists w1. split; [reflexivity|]. by apply Hret. }
  destruct Hrun as (w1 & Hrun & Hs1).
  unfold app.interact. cbn [app.run]. rewrite Hrun.
  destruct (script_idle ext (with_screen (fun _ => []) w1)
              {| chain_retriever :=
                   as_retriever
                     {| indexed_chunks :=
                          split_documents ext vector_store.chunk_size
                            vector_store.chunk_overlap docs |} |})
    as (w2 & -> & Hs2).
  { cbn. by rewrite Hs1. }
  { intros p. cbn. by rewrite Hs1. }
  split; [done|]. cbn in Hs2 |- *. by rewrite Hs2.
Qed.

Lemma page_is_ingested_witness :
  let out :=
    app.interact scenario.services (app.ProcessURL "https://example.org/france")
      initial_world in
  out.1 = app.Completed /\
  session_state out.2 =
    {| rag_chain :=
         Some {| chain_retriever :=
                   as_retriever
                     {| indexed_chunks :=
                          split_documents scenario.services vector_store.chunk_size
                            vector_store.chunk_overlap
                            [scenario.doc "Paris is the capital of France."] |} |};
       chat_history := [];
       suggested_questions :=
         app.fresh_suggestions scenario.services
           [scenario.doc "Paris is the capital of France."];
       source_name := "https://example.org/france" |}.
Proof.
  apply (page_is_ingested scenario.services "https://example.org/france"
           [scenario.doc "Paris is the capital of France."] initial_world).
  - reflexivity.
  - vm_compute. reflexivity.
  - vm_compute. reflexivity.
  - vm_compute. reflexivity.
  - vm_compute. reflexivity.
  - reflexivity.
  - vm_compute. reflexivity.
  - reflexivity.
  - reflexivity.
  - reflexivity.
Defined.

(** ** Files left by an upload *)

Section UploadFiles.
Variable ext : Services.

Lemma load_and_cache_document_files file_content file_name file_type w :
  files (app.load_and_cache_document ext file_content file_name file_type w).2
    ⊆ files w.
Proof.
  destruct (cache_data w !! ("load_and_cache_document",
              [ArgStr file_content; ArgStr file_name; ArgStr file_type]) ≫= proj_docs)
    as [docs|] eqn:Hhit.
  - unfold app.load_and_cache_document, st_cache_data. by rewrite Hhit.
  - assert (Hsame :
      files (app.load_and_cache_document ext file_content file_name file_type w).2
      = delete (app.temp_path_of ext file_content file_name) (files w)).
    { unfold app.load_and_cache_document, st_cache_data. rewrite Hhit.
      pose proof (written_then_removed
        (if String.eqb file_type app.pdf_type
         then data_loader.load_from_pdf ext (app.temp_path_of ext file_content file_name)
         else if String.eqb file_type app.docx_type
         then data_loader.load_from_docx ext (app.temp_path_of ext file_content file_name)
         else ret [])
        (app.temp_path_of ext file_content file_name) file_content w) as H.
      cbv zeta.
      destruct ((write_file _ _ ;; try_finally _ _) w) as [[docs|e|] w'];
        cbn in H |- *; apply H; intros w0;
        repeat destruct (String.eqb _ _);
        auto using load_from_pdf_files, load_from_docx_files. }
    rewrite Hsame. apply delete_subseteq.
Qed.

Lemma load_uploaded_files uploaded all_docs w :
  files (app.load_uploaded ext uploaded all_docs w).2 ⊆ files w.
Proof.
  revert all_docs w.
  induction uploaded as [|up_file rest IH]; intros all_docs w; [done|].
  cbn [app.load_uploaded]. rewrite bind_run.
  pose proof (load_and_cache_document_files (up_value up_file) (up_name up_file)
                (up_type up_file) w) as Hone.
  destruct (app.load_and_cache_document ext _ _ _ w) as [[docs|e|] w1];
    cbn [snd] in Hone |- *; [|done..].
  etrans; [apply IH | done].
Qed.

Lemma create_vector_store_files docs w :
  files (vector_store.create_vector_store ext docs w).2 = files w.
Proof.
  unfold vector_store.create_vector_store, st_cache_resource, bind, record_event,
    of_error, ret, raise.
  destruct (_ ≫= proj_store); [done|].
  destruct (negb (truthy_list docs)); [done|].
  destruct (negb (truthy_list _)); [done|]. cbn.
  destruct (embedding_init_error ext); [done|].
  by destruct (chroma_insert_error ext _).
Qed.

Lemma create_rag_chain_files retriever w :
  files (rag_pipeline.create_rag_chain ext retriever w).2 = files w.
Proof.
  unfold rag_pipeline.create_rag_chain, st_cache_resource, try_except, bind,
    record_event, of_error, ret, raise.
  destruct (_ ≫= proj_chain); [done|]. cbn.
  by destruct (llm_init_error ext).
Qed.

Lemma generate_suggested_questions_files docs w :
  files (app.generate_suggested_questions ext docs w).2 = files w.
Proof.
  unfold app.generate_suggested_questions, st_cache_data, try_except, bind,
    record_event, of_error, of_ext, ret, raise.
  destruct (_ ≫= proj_questions); [done|].
  destruct (negb (truthy_list docs)); cbn; [done|].
  destruct (llm_init_error ext); cbn; [done|].
  by destruct (llm_invoke ext _).
Qed.

Lemma process_new_source_files docs name w :
  files (app.process_new_source ext docs name w).2 = files w.
Proof.
  unfold app.process_new_source.
  rewrite bind_run. cbn [st_cache_resource_clear].
  rewrite bind_run. cbn [st_cache_data_clear].
  set (w0 := with_cache_data _ _).
  assert (H0 : files w0 = files w) by reflexivity.
  clearbody w0. rewrite <- H0. clear H0.
  rewrite bind_run.
  pose proof (create_vector_store_files docs w0) as H1.
  destruct (vector_store.create_vector_store ext docs w0) as [[vs|e|] w1];
    cbn [snd] in H1 |- *; [|done..].
  rewrite <- H1. rewrite bind_run.
  pose proof (create_rag_chain_files (as_retriever vs) w1) as H2.
  destruct (rag_pipeline.create_rag_chain ext _ w1) as [[chain|e|] w2];
    cbn [snd] in H2 |- *; [|done..].
  rewrite <- H2.
  unfold bind at 1, modify_session at 1. cbn.
  rewrite bind_run.
  match goal with
  | |- context [app.generate_suggested_questions ext docs ?W] =>
      pose proof (generate_suggested_questions_files docs W) as H3;
      destruct (app.generate_suggested_questions ext docs W) as [[qs|e|] w3]
  end; cbn in H3 |- *; done.
Qed.

End UploadFiles.

(** X19.  An upload leaves no file behind: however [process_documents]
    ends (documents ingested, nothing extracted, or a loader or the
    indexing raising midway), every file on disk afterwards was there
    before, with the same content. *)
Theorem process_documents_leaves_no_file
  (ext : Services) (uploaded_files : list UploadedFile) (w : World) :
  files (app.process_documents ext uploaded_files w).2 ⊆ files w.
Proof.
  unfold app.process_documents.
  destruct (truthy_list uploaded_files); [|done].
  rewrite bind_run.
  pose proof (load_uploaded_files ext uploaded_files [] w) as Hload.
  destruct (app.load_uploaded ext uploaded_files [] w) as [[all_docs|e|] w1];
    cbn [snd] in Hload |- *; [|done..].
  destruct (truthy_list all_docs); [|done].
  rewrite bind_run.
  pose proof (process_new_source_files ext all_docs
                (Py.join ", " (map up_name uploaded_files)) w1) as Hfiles.
  destruct (app.process_new_source ext all_docs _ w1) as [[[]|e|] w2];
    unfold st_rerun; cbn [snd] in Hfiles |- *; by rewrite Hfiles.
Qed.

(** * Citations on the page *)

Section Quiet.
Context {A B : Type}.

Lemma quiet_ret (a : A) : adds_no_sources (ret a).
Proof. intros w p H. exact H. Qed.

Lemma quiet_raise (e : Exn) : adds_no_sources (raise (A:=A) e).
Proof. intros w p H. exact H. Qed.

Lemma quiet_rerun : adds_no_sources (st_rerun (A:=A)).
Proof. intros w p H. exact H. Qed.

Lemma quiet_bind (m : M A) (k : A -> M B) :
  adds_no_sources m -> (forall a, adds_no_sources (k a)) ->
  adds_no_sources (bind m k).
Proof.
  intros Hm Hk w p. unfold bind. specialize (Hm w p).
  destruct (m w) as [[a|e|] w1]; cbn in *; [|done..].
  intros H. by apply Hm, (Hk a).
Qed.

Lemma quiet_try_except (body : M A) (handler : Exn -> M A) :
  adds_no_sources body -> (forall e, adds_no_sources (handler e)) ->
  adds_no_sources (try_except body handler).
Proof.
  intros Hm Hh w p. unfold try_except. specialize (Hm w p).
  destruct (body w) as [[a|e|] w1]; cbn in *; [done| |done].
  intros H. by apply Hm, (Hh e).
Qed.

Lemma quiet_try_finally (body : M A) (cleanup : M unit) :
  adds_no_sources body -> adds_no_sources cleanup ->
  adds_no_sources (try_finally body cleanup).
Proof.
  intros Hm Hc w p. unfold try_finally. specialize (Hm w p).
  destruct (body w) as [r w1]. specialize (Hc w1 p).
  destruct (cleanup w1) as [[[]|e|] w2]; cbn in *; intros H; by apply Hm, Hc.
Qed.

Lemma quiet_cache_data inj proj name key (body : M A) :
  adds_no_sources body ->
  adds_no_sources (st_cache_data inj proj name key body).
Proof.
  intros Hm w p. unfold st_cache_data. specialize (Hm w p).
  destruct (_ ≫= proj); [done|].
  by destruct (body w) as [[a|e|] w1].
Qed.

Lemma quiet_cache_resource inj proj name key (body : M A) :
  adds_no_sources body ->
  adds_no_sources (st_cache_resource inj proj name key body).
Proof.
  intros Hm w p. unfold st_cache_resource. specialize (Hm w p).
  destruct (_ ≫= proj); [done|].
  by destruct (body w) as [[a|e|] w1].
Qed.

Lemma quiet_lift (r : Exn + A) : adds_no_sources (lift r).
Proof. destruct r; intros w p H; exact H. Qed.

Lemma quiet_of_ext (r : ExtResult A) : adds_no_sources (of_ext r).
Proof. destruct r; intros w p H; exact H. Qed.

End Quiet.

Lemma quiet_of_error (e : option string) : adds_no_sources (of_error e).
Proof. destruct e; intros w p H; exact H. Qed.

Lemma quiet_record_event (e : Event) : adds_no_sources (record_event e).
Proof. intros w p H. exact H. Qed.

Lemma quiet_modify_session f : adds_no_sources (modify_session f).
Proof. intros w p H. exact H. Qed.

Lemma quiet_show (x : Widget) :
  (forall passages, x <> SourcesExpander passages) -> adds_no_sources (show x).
Proof.
  intros Hx w p H. cbn in H. apply elem_of_app in H as [H|H]; [done|].
  apply list_elem_of_singleton in H. by destruct (Hx p).
Qed.

Lemma quiet_os_path_exists (path : string) : adds_no_sources (os_path_exists path).
Proof. intros w p H. exact H. Qed.

Lemma quiet_os_remove (path : string) : adds_no_sources (os_remove path).
Proof. intros w p. unfold os_remove. by destruct (entry w path) as [[]|]. Qed.

Lemma quiet_write_file (path content : string) :
  adds_no_sources (write_file path content).
Proof. intros w p H. exact H. Qed.

Lemma quiet_read_file (path : string) : adds_no_sources (read_file path).
Proof. intros w p. unfold read_file. by destruct (entry w path) as [[]|]. Qed.

Lemma quiet_cache_data_clear : adds_no_sources st_cache_data_clear.
Proof. intros w p H. exact H. Qed.

Lemma quiet_cache_resource_clear : adds_no_sources st_cache_resource_clear.
Proof. intros w p H. exact H. Qed.

Create HintDb page discriminated.
#[local] Hint Resolve quiet_ret quiet_raise quiet_rerun quiet_lift quiet_of_ext
  quiet_of_error quiet_record_event quiet_modify_session quiet_os_path_exists
  quiet_os_remove quiet_write_file quiet_read_file quiet_cache_data_clear
  quiet_cache_resource_clear : page.

Ltac quiet :=
  repeat first
    [ solve [auto with page]
    | apply quiet_show; intros ?; discriminate
    | apply quiet_bind; [|intro] | apply quiet_try_except; [|intro]
    | apply quiet_try_finally | apply quiet_cache_data
    | apply quiet_cache_resource
    | match goal with
      | |- adds_no_sources (match ?x with _ => _ end) => destruct x
      end ].

Section QuietSidebar.
Variable ext : Services.

Lemma get_video_transcript_quiet url :
  adds_no_sources (video_processor.get_video_transcript ext url).
Proof.
  unfold video_processor.get_video_transcript, video_processor.ytt_api_fetch,
    video_processor._transcribe_audio_with_whisper,
    video_processor.ydl_download_to, video_processor.whisper_model_transcribe,
    video_processor.remove_if_exists, video_processor.write_opt.
  quiet.
Qed.

Lemma load_and_cache_document_quiet content name type :
  adds_no_sources (app.load_and_cache_document ext content name type).
Proof.
  unfold app.load_and_cache_document, data_loader.load_from_pdf,
    data_loader.load_from_docx, video_processor.remove_if_exists.
  quiet.
Qed.

Lemma load_uploaded_quiet uploaded all_docs :
  adds_no_sources (app.load_uploaded ext uploaded all_docs).
Proof.
  revert all_docs. induction uploaded as [|f rest IH]; intros all_docs; simpl.
  - apply quiet_ret.
  - apply quiet_bind; [apply load_and_cache_document_quiet | intro; apply IH].
Qed.

Lemma process_new_source_quiet docs name :
  adds_no_sources (app.process_new_source ext docs name).
Proof.
  unfold app.process_new_source, vector_store.create_vector_store,
    rag_pipeline.create_rag_chain, app.generate_suggested_questions.
  quiet.
Qed.

Lemma sidebar_quiet a : adds_no_sources (app.sidebar ext a).
Proof.
  pose proof get_video_transcript_quiet. pose proof load_uploaded_quiet.
  pose proof process_new_source_quiet.
  destruct a; cbn [app.sidebar]; [quiet| | |quiet|quiet].
  - unfold app.process_url, data_loader.load_from_webpage. quiet.
  - unfold app.process_documents. quiet.
Qed.

End QuietSidebar.

Section Pages.
Variable ext : Services.

Lemma process_new_source_no_rerun docs name w :
  (app.process_new_source ext docs name w).1 <> Rerun.
Proof.
  rewrite process_new_source_ends.
  destruct (negb (truthy_list docs)); [done|].
  destruct (negb (truthy_list _)); [done|].
  destruct (embedding_init_error ext); [done|].
  destruct (chroma_insert_error ext _); [done|].
  by destruct (llm_init_error ext).
Qed.

(** An ingest that is started ends the run: it raises, or it resets the
    history and asks for a rerun. *)
Lemma ingest_then_rerun docs name w :
  let r := (app.process_new_source ext docs name ;; st_rerun (A:=unit)) w in
  session_state r.2 = session_state w \/
  r.1 = Rerun /\ chat_history (session_state r.2) = [].
Proof.
  cbv zeta. rewrite bind_run.
  pose proof (process_new_source_no_rerun docs name w) as Hno.
  destruct (app.process_new_source ext docs name w) as [[[]|e|] w1] eqn:Hp;
    cbn in Hno |- *; [| |done].
  - right. split; [done|].
    by rewrite (process_new_source_return ext docs name w w1 Hp).
  - left. by eapply process_new_source_raise.
Qed.

(** What the sidebar does to the session: nothing, unless it ingests a
    source, resets the history and asks for a rerun. *)
Lemma sidebar_session a w :
  let r := app.sidebar ext a w in
  session_state r.2 = session_state w \/
  r.1 = Rerun /\ chat_history (session_state r.2) = [].
Proof.
  destruct a as [|url|uploaded|i|prompt]; cbn [app.sidebar]; try by left.
  - unfold app.process_url. destruct (truthy_str url); [|by left].
    cbv zeta. rewrite bind_run.
    match goal with
    | |- context [match ?m w with _ => _ end] =>
        assert (Hkeep : keeps_session m)
          by (pose proof (get_video_transcript_keeps ext);
              pose proof (load_from_webpage_keeps ext); structural);
        specialize (Hkeep w); destruct (m w) as [[docs|e|] w0]
    end; cbn [fst snd] in Hkeep |- *; [|by left..].
    rewrite <- Hkeep.
    destruct (truthy_list docs); [apply ingest_then_rerun | by left].
  - unfold app.process_documents. destruct (truthy_list uploaded); [|by left].
    cbv zeta. rewrite bind_run.
    pose proof (load_uploaded_keeps ext uploaded [] w) as Hkeep.
    destruct (app.load_uploaded ext uploaded [] w) as [[docs|e|] w0];
      cbn [fst snd] in Hkeep |- *; [|by left..].
    rewrite <- Hkeep.
    destruct (truthy_list docs); [apply ingest_then_rerun | by left].
Qed.

(** The expanders among the rendered history are those of the answers that
    begin with the marker and hold a context. *)
Lemma rendered_sources (history : list Message) (passages : list string) :
  SourcesExpander passages ∈ concat (map app.render_message history) ->
  exists content context,
    AIMessage content context ∈ history /\
    Py.startswith content app.context_marker = true /\
    context <> [] /\
    passages = map page_content context.
Proof.
  induction history as [|msg history IH]; cbn [map concat].
  { intros H. by apply elem_of_nil in H. }
  intros H. apply elem_of_app in H as [H|H].
  - destruct msg as [content|content context].
    + apply list_elem_of_singleton in H. discriminate.
    + apply sources_expander_shown in H as (? & ? & ?).
      exists content, context. split; [apply elem_of_cons; by left | done].
  - destruct (IH H) as (content & context & Hin & ?).
    exists content, context. split; [apply elem_of_cons; by right | done].
Qed.

(** The chat interface puts an expander on the page only when it renders
    the history. *)
Lemma main_chat_interface_page a w passages :
  SourcesExpander passages ∈ screen (app.main_chat_interface ext a w).2 ->
  SourcesExpander passages ∈ screen w \/
  SourcesExpander passages
    ∈ concat (map app.render_message (chat_history (session_state w))).
Proof.
  destruct w as [[rc h sq sn] cd cr fs ev sc ds].
  unfold app.main_chat_interface, app.render_history, app.response_streaming,
    app.suggested_questions_block, app.chat_input_block, app.append_message,
    bind, get_session, modify_session, record_event, st_rerun, show, of_error,
    ret, raise.
  cbn. destruct rc as [chain|]; cbn;
    [|rewrite elem_of_app, list_elem_of_singleton; intuition discriminate].
  destruct (last h) as [[q|c ctx]|]; cbn.
  - destruct (chain_stream ext chain q _) as [chunks [msg|]]; cbn;
      try destruct (truthy_str (app.consume chunks "" []).1); cbn;
      rewrite !elem_of_app, ?list_elem_of_singleton; intuition discriminate.
  - destruct sq as [|q0 sq]; cbn; destruct a as [| | |i|p]; cbn;
      try destruct (_ !! i); try destruct (truthy_str p); cbn;
      rewrite !elem_of_app, ?list_elem_of_singleton; intuition discriminate.
  - destruct sq as [|q0 sq]; cbn; destruct a as [| | |i|p]; cbn;
      try destruct (_ !! i); try destruct (truthy_str p); cbn;
      rewrite !elem_of_app, ?list_elem_of_singleton; intuition discriminate.
Qed.

(** What the chat interface does to the history: nothing, a question
    appended, or the answer to the pending question appended, with the
    text and the last non-empty context of the stream. *)
Lemma main_chat_interface_history a w :
  let h := chat_history (session_state w) in
  let h' := chat_history (session_state (app.main_chat_interface ext a w).2) in
  h' = h \/
  (exists q, h' = h ++ [HumanMessage q]) \/
  exists chain q,
    rag_chain (session_state w) = Some chain /\
    last h = Some (HumanMessage q) /\
    let chunks := (chain_stream ext chain q (take (length h - 1) h)).1 in
    h' = h ++ [AIMessage (Py.join "" (omap get_answer chunks))
                 (default []
                    (last (List.filter truthy_list (omap get_context chunks))))].
Proof.
  destruct w as [[rc h sq sn] cd cr fs ev sc ds].
  unfold app.main_chat_interface, app.render_history, app.response_streaming,
    app.suggested_questions_block, app.chat_input_block, app.append_message,
    bind, get_session, modify_session, record_event, st_rerun, show, of_error,
    ret, raise.
  cbn. destruct rc as [chain|]; cbn; [|by left].
  destruct (last h) as [[q|c ctx]|] eqn:Hlast; cbn.
  - destruct (chain_stream ext chain q _) as [chunks [msg|]] eqn:Hstream; cbn;
      [by destruct (truthy_str (app.consume chunks "" []).1); left|].
    right. right. exists chain, q. split; [done|]. split; [done|].
    rewrite Hstream. cbn.
    by rewrite consume_text, consume_context.
  - destruct sq as [|q0 sq]; cbn; destruct a as [| | |i|p]; cbn;
      try destruct (_ !! i) as [qi|]; try destruct (truthy_str p); cbn;
      eauto.
  - destruct sq as [|q0 sq]; cbn; destruct a as [| | |i|p]; cbn;
      try destruct (_ !! i) as [qi|]; try destruct (truthy_str p); cbn;
      eauto.
Qed.

End Pages.

(** What a run of the script does to the history, and which expanders it
    adds to the page. *)
Lemma script_history_and_page (ext : Services) (a : app.Action) (w : World) :
  let h := chat_history (session_state w) in
  let out := app.script ext a w in
  let h' := chat_history (session_state out.2) in
  (h' = [] \/ h' = h \/
   (exists q, h' = h ++ [HumanMessage q]) \/
   exists chain q,
     rag_chain (session_state w) = Some chain /\
     last h = Some (HumanMessage q) /\
     let chunks := (chain_stream ext chain q (take (length h - 1) h)).1 in
     h' = h ++ [AIMessage (Py.join "" (omap get_answer chunks))
                  (default []
                     (last (List.filter truthy_list (omap get_context chunks))))]) /\
  (forall passages,
     SourcesExpander passages ∈ screen out.2 ->
     SourcesExpander passages ∈ screen w \/
     exists content context,
       AIMessage content context ∈ h /\
       Py.startswith content app.context_marker = true /\
       context <> [] /\
       passages = map page_content context).
Proof.
  intros h out h'. subst h out h'. unfold app.script. rewrite bind_run.
  pose proof (sidebar_session ext a w) as Hsession.
  pose proof (sidebar_quiet ext a w) as Hquiet.
  destruct (app.sidebar ext a w) as [[[]|e|] w1];
    cbn [fst snd] in Hsession, Hquiet |- *.
  - destruct Hsession as [Hsame|[? _]]; [|done].
    pose proof (main_chat_interface_history ext a w1) as Hhistory.
    cbv zeta in Hhistory. rewrite Hsame in Hhistory. split.
    + destruct Hhistory as [->|[[q ->]|(chain & q & ? & ? & ->)]]; eauto 10.
    + intros passages Hin.
      apply main_chat_interface_page in Hin as [Hin|Hin]; [by left; apply Hquiet|].
      rewrite Hsame in Hin. right. by apply rendered_sources.
  - split; [|by left; apply Hquiet].
    destruct Hsession as [->|[? _]]; [by right; left | done].
  - split; [|by left; apply Hquiet].
    destruct Hsession as [->|[_ ->]]; [by right; left | by left].
Qed.

(** C1, as the code has it.  Whatever the action and the state, a run of
    the script on a fresh page leaves the history empty (a source was
    ingested), unchanged, one question longer, or one answer longer; the
    answer appended stores the text of the stream and the last non-empty
    context the stream yielded, whatever the text begins with.  It is the
    page that couples the two: every "Show Sources" expander on the page
    shows the context of an answer of the history whose text begins with
    the marker and whose stored context is not empty. *)
Theorem citations_shown_only_with_marker
  (ext : Services) (a : app.Action) (w : World) :
  let h := chat_history (session_state w) in
  let out := app.script ext a (with_screen (fun _ => []) w) in
  let h' := chat_history (session_state out.2) in
  (h' = [] \/ h' = h \/
   (exists q, h' = h ++ [HumanMessage q]) \/
   exists chain q,
     rag_chain (session_state w) = Some chain /\
     last h = Some (HumanMessage q) /\
     let chunks := (chain_stream ext chain q (take (length h - 1) h)).1 in
     h' = h ++ [AIMessage (Py.join "" (omap get_answer chunks))
                  (default []
                     (last (List.filter truthy_list (omap get_context chunks))))]) /\
  (forall passages,
     SourcesExpander passages ∈ screen out.2 ->
     exists content context,
       AIMessage content context ∈ h /\
       Py.startswith content app.context_marker = true /\
       context <> [] /\
       passages = map page_content context).
Proof.
  intros h out h'. subst h out h'.
  destruct (script_history_and_page ext a (with_screen (fun _ => []) w))
    as [Hhistory Hpage].
  split; [exact Hhistory|].
  intros passages Hin. destruct (Hpage passages Hin) as [Hold|Hshown]; [|done].
  by apply elem_of_nil in Hold.
Qed.

Lemma citations_shown_only_with_marker_witness :
  let out :=
    app.script scenario.services app.Idle
      (with_screen (fun _ => []) scenario.answered_world) in
  out.1 = Return tt /\
  screen out.2 =
    [ChattingWith "https://example.org/france";
     UserBubble "How many people live in Paris?";
     AssistantBubble "Based on general knowledge: about 2 million.";
     UserBubble "What is the capital of France?";
     AssistantBubble "Based on the provided context: Paris.";
     SourcesExpander ["Paris is the capital of France."];
     ChatInputBox] /\
  forall passages,
    SourcesExpander passages ∈ screen out.2 ->
    exists content context,
      AIMessage content context
        ∈ chat_history (session_state scenario.answered_world) /\
      Py.startswith content app.context_marker = true /\
      context <> [] /\
      passages = map page_content context.
Proof.
  split; [vm_compute; reflexivity|]. split; [vm_compute; reflexivity|].
  exact (proj2 (citations_shown_only_with_marker scenario.services app.Idle
                  scenario.answered_world)).
Defined.
